(** * exdgo: the replay request and its line reprocessor (replay.go)

    A shallow embedding of [replay.go]: the validated replay request
    ([setupReplayRequest]), the stateful line reprocessor
    ([rawLineProcessor.processRawLine]) and the two consumption paths built
    around it ([ReplayRequest.DownloadWithContext] and
    [replayStreamIterator.Next]).

    Go maps are finite maps ([gmap]); [int64] is [Z]; a [float64] is an
    IEEE 754 value ([spec_float]); a pointer that may be nil is an [option];
    a panic of the Go runtime is an explicit outcome. *)

From Stdlib Require Import ZArith Ascii String.
From Stdlib Require Import Floats.SpecFloat.
From stdpp Require Import gmap strings list fin_maps.

Local Open Scope string_scope.
Local Open Scope Z_scope.

Set Warnings "-register-all".

(** ** Errors *)

(** The two sentinel errors of [strconv]. *)
Inductive NumErrorKind := ErrSyntax | ErrRange.

(** Go [error] values, by the way they are built. Errors that come from a
    collaborator outside this file (encoding/json, the raw transport,
    [copyFilter]) are opaque. *)
Inductive error :=
| errors_New (text : string)
| fmt_Errorf (prefix : string) (cause : error)
| strconv_NumError (Func Num : string) (Err : NumErrorKind)
| foreign_error (text : string).

(** The errors [processRawLine] builds itself, with
    [fmt.Errorf(prefix + ": %v", cause)]: the spec's [DecodeError]. *)
Definition is_DecodeError (e : error) : bool :=
  match e with
  | fmt_Errorf prefix _ =>
      bool_decide (prefix = "def update unmarshal")
      || bool_decide (prefix = "message unmarshal")
      || bool_decide (prefix = "type conversion")
  | _ => false
  end.

(** ** strconv.ParseInt(s, 10, 64) *)

Definition maxUint64 : Z := 2 ^ 64 - 1.
Definition minInt64 : Z := - 2 ^ 63.
Definition maxInt64 : Z := 2 ^ 63 - 1.

Definition digit_of (c : ascii) : option Z :=
  let n := Z.of_nat (nat_of_ascii c) in
  if (48 <=? n) && (n <=? 57) then Some (n - 48) else None.

(** The digit loop of [strconv.ParseUint] for base 10 and 64 bits: [n] is the
    value read so far. A character that is not a decimal digit is a syntax
    error; an overflow is a range error, reported as soon as it happens. *)
Fixpoint ParseUint_loop (s : string) (n : Z) : Z * option NumErrorKind :=
  match s with
  | EmptyString => (n, None)
  | String c rest =>
      match digit_of c with
      | None => (0, Some ErrSyntax)
      | Some d =>
          if maxUint64 / 10 + 1 <=? n then (maxUint64, Some ErrRange)
          else
            let n1 := n * 10 + d in
            if maxUint64 <? n1 then (maxUint64, Some ErrRange)
            else ParseUint_loop rest n1
      end
  end.

Definition ParseUint (s : string) : Z * option NumErrorKind :=
  match s with
  | EmptyString => (0, Some ErrSyntax)
  | _ => ParseUint_loop s 0
  end.

(** [strconv.ParseInt(s0, 10, 64)]: the value and the error, as Go returns
    both. *)
Definition ParseInt (s0 : string) : Z * option error :=
  match s0 with
  | EmptyString => (0, Some (strconv_NumError "ParseInt" s0 ErrSyntax))
  | String c rest =>
      let neg := bool_decide (c = "-"%char) in
      let s := if bool_decide (c = "+"%char) || neg then rest else s0 in
      let cutoff := 2 ^ 63 in
      match ParseUint s with
      | (_, Some ErrSyntax) => (0, Some (strconv_NumError "ParseInt" s0 ErrSyntax))
      | (un, _) =>
          if negb neg && (cutoff <=? un)
          then (cutoff - 1, Some (strconv_NumError "ParseInt" s0 ErrRange))
          else if neg && (cutoff <? un)
          then (- cutoff, Some (strconv_NumError "ParseInt" s0 ErrRange))
          else (if neg then - un else un, None)
      end
  end.

(** The number a string of decimal digits writes, after the digits read so
    far gave [acc]; [None] when a character is not a digit. *)
Fixpoint decimal_value (s : string) (acc : Z) : option Z :=
  match s with
  | EmptyString => Some acc
  | String c rest =>
      match digit_of c with
      | Some d => decimal_value rest (acc * 10 + d)
      | None => None
      end
  end.

(** ** Values decoded from JSON *)

(** What [json.Unmarshal] stores in an [interface{}] (nil, bool, float64,
    string, slice, map), and the [int64] the reprocessor puts there. *)
Inductive value :=
| VNil
| VBool (b : bool)
| VFloat64 (f : spec_float)
| VString (s : string)
| VInt64 (n : Z)
| VSlice (l : list value)
| VMap (m : gmap string value).

(** [val != nil] *)
Definition is_nil (v : value) : bool :=
  match v with VNil => true | _ => false end.

(** The integer part of a finite float, rounded toward zero. *)
Definition truncate (s : bool) (m : positive) (e : Z) : Z :=
  let mag := if 0 <=? e then Z.pos m * 2 ^ e else Z.pos m / 2 ^ (- e) in
  if s then - mag else mag.

Definition in_int64 (z : Z) : bool := (minInt64 <=? z) && (z <=? maxInt64).

(** ** Lines *)

(** Modelled from the spec: the declaration of [LineType] is in another file
    of the package; the data model gives [enum{Start, Message, Other...}]. *)
Inductive LineType :=
| LineTypeStart
| LineTypeMessage
| LineTypeOther (name : string).

Global Instance LineType_eq_dec : EqDecision LineType.
Proof. solve_decision. Defined.

(** Modelled from the spec: [StringLine] is declared in another file; the
    raw line is [{exchange, type, timestamp, optional channel, opaque byte
    payload}]; the payload is a byte string. *)
Record StringLine := {
  sl_Exchange : string;
  sl_Type : LineType;
  sl_Timestamp : Z;
  sl_Channel : option string;
  sl_Message : string;
}.

(** The [Message interface{}] of a typed line: nil, the raw payload, or the
    decoded field mapping. *)
Inductive message :=
| MsgNil
| MsgRaw (payload : string)
| MsgFields (fields : gmap string value).

(** Modelled from the spec: [StructLine] is declared in another file; the
    typed line is [{exchange, type, timestamp, optional channel, message,
    optional definition}]. *)
Record StructLine := {
  Exchange : string;
  Type_ : LineType;
  Timestamp : Z;
  Channel : option string;
  Message : message;
  Definition_ : option (gmap string string);
}.

(** The zero value of [StructLine], which a named result holds until it is
    assigned. *)
Definition zeroStructLine : StructLine :=
  {| Exchange := ""; Type_ := LineTypeOther ""; Timestamp := 0;
     Channel := None; Message := MsgNil; Definition_ := None |}.

(** ** The line reprocessor *)

(** [map[exchange]map[channel]map[field]type] *)
Record rawLineProcessor := {
  defs : gmap string (gmap string (gmap string string));
}.

Definition newRawLineProcessor : rawLineProcessor := {| defs := ∅ |}.

(** What a call of [processRawLine] does: it returns [(ret, ok, err)] or it
    panics. *)
Inductive outcome :=
| Returned (ret : StructLine) (ok : bool) (err : option error)
| Panicked (reason : string).

(** The order in which a [for ... range] visits a map is not specified by Go:
    any enumeration of the entries. It is taken here as a function of the
    map; what is proved holds for every such function, and the table and the
    successful outcomes are shown below not to depend on it. *)
Record RangeOrder := {
  range_of :> gmap string string → list (string * string);
  range_of_perm : ∀ m, range_of m ≡ₚ map_to_list m;
}.

(** How the type-conversion loop ends. *)
Inductive conversion :=
| Converted (msgObj : gmap string value)
| ConversionError (serr : error)
| ConversionPanic (reason : string).

(** ** The replay request *)

(** [time.Time], as far as [UnixNano] reads it: the seconds since the Unix
    epoch and the nanoseconds within the second. *)
Record Time := {
  unixSec : Z;
  nsec : Z;
}.

Definition wrap64 (z : Z) : Z := (z + 2 ^ 63) mod 2 ^ 64 - 2 ^ 63.

(** [t.UnixNano()]: [unixSec*1e9 + nsec] in [int64] arithmetic. *)
Definition UnixNano (t : Time) : Z := wrap64 (unixSec t * 10 ^ 9 + nsec t).

Record ReplayRequestParam := {
  param_Filter : gmap string (list string);
  param_Start : Time;
  param_End : Time;
}.

(** Modelled from the spec: the raw transport's stream is declared in another
    file; it is a pull-based sequence of raw lines that ends gracefully or
    with a transport error. *)
Record StringLineIterator := {
  pending : list StringLine;
  failure : option error;
}.

(** Modelled from the spec: [rawItr.Next()] pulls the next raw line;
    [(line, ok, err)] and the iterator afterwards. *)
Definition StringLineIterator_Next (it : StringLineIterator)
  : option StringLine * bool * option error * StringLineIterator :=
  match pending it with
  | line :: rest => (Some line, true, None, {| pending := rest; failure := failure it |})
  | [] => (None, false, failure it, it)
  end.

(** What a call of [Next] on the typed iterator does. *)
Inductive next_outcome :=
| NextReturned (line : option StructLine) (ok : bool) (err : option error)
| NextPanicked (reason : string).

(** What a call of [DownloadWithContext] does. *)
Inductive download_outcome :=
| DownloadReturned (lines : option (list StructLine)) (err : option error)
| DownloadPanicked (reason : string).

(** How draining a typed iterator ends. *)
Inductive stream_end :=
| Exhausted
| Errored (err : error)
| StreamPanicked (reason : string).

(** ** Sample data

    The lines of the spec's examples, with a stand-in for encoding/json
    that knows their payloads; they instantiate the development below. *)

Definition dquote : string := String (ascii_of_nat 34) EmptyString.

Definition json_string (s : string) : string := (dquote ++ s ++ dquote)%string.

(** The definition [{ts: timestamp, n: int, s: string}] and its JSON text. *)
Definition sample_def : gmap string string :=
  {[ "ts" := "timestamp"; "n" := "int"; "s" := "string" ]}.

Definition sample_def_payload : string :=
  ("{" ++ json_string "ts" ++ ":" ++ json_string "timestamp" ++ ","
       ++ json_string "n" ++ ":" ++ json_string "int" ++ ","
       ++ json_string "s" ++ ":" ++ json_string "string" ++ "}")%string.

(** [42.0] as a binary64 value: [42 * 2^47 * 2^-47]. *)
Definition float_42 : spec_float := S754_finite false 5910974510923776 (-47).

(** The message [{ts: "1620000000000000000", n: 42.0, s: "x"}]. *)
Definition sample_msg : gmap string value :=
  {[ "ts" := VString "1620000000000000000"; "n" := VFloat64 float_42;
     "s" := VString "x" ]}.

Definition sample_msg_payload : string :=
  ("{" ++ json_string "ts" ++ ":" ++ json_string "1620000000000000000" ++ ","
       ++ json_string "n" ++ ":42.0,"
       ++ json_string "s" ++ ":" ++ json_string "x" ++ "}")%string.

(** The message [{ts: null, n: 42.0, extra: "kept"}]. *)
Definition null_msg : gmap string value :=
  {[ "ts" := VNil; "n" := VFloat64 float_42; "extra" := VString "kept" ]}.

Definition null_msg_payload : string :=
  ("{" ++ json_string "ts" ++ ":null,"
       ++ json_string "n" ++ ":42.0,"
       ++ json_string "extra" ++ ":" ++ json_string "kept" ++ "}")%string.

(** The message [{ts: "soon"}]: a timestamp that is not a number. *)
Definition bad_ts_msg : gmap string value := {[ "ts" := VString "soon" ]}.

Definition bad_ts_payload : string :=
  ("{" ++ json_string "ts" ++ ":" ++ json_string "soon" ++ "}")%string.

(** The message [{n: "7"}]: an int given as a string. *)
Definition bad_int_msg : gmap string value := {[ "n" := VString "7" ]}.

Definition bad_int_payload : string :=
  ("{" ++ json_string "n" ++ ":" ++ json_string "7" ++ "}")%string.

(** The message [{ts: true}]: a boolean where a timestamp string is
    expected. *)
Definition bool_ts_msg : gmap string value := {[ "ts" := VBool true ]}.

Definition bool_ts_payload : string :=
  ("{" ++ json_string "ts" ++ ":true}")%string.

Definition sample_Unmarshal_def (payload : string)
  : gmap string string * option error :=
  if decide (payload = sample_def_payload) then (sample_def, None)
  else (∅, Some (foreign_error "json: cannot unmarshal into map[string]string")).

Definition sample_Unmarshal_obj (payload : string)
  : gmap string value * option error :=
  if decide (payload = sample_msg_payload) then (sample_msg, None)
  else if decide (payload = null_msg_payload) then (null_msg, None)
  else if decide (payload = bad_ts_payload) then (bad_ts_msg, None)
  else if decide (payload = bad_int_payload) then (bad_int_msg, None)
  else if decide (payload = bool_ts_payload) then (bool_ts_msg, None)
  else (∅, Some (foreign_error "json: cannot unmarshal into map[string]interface {}")).

(** On amd64 a conversion out of range gives the smallest [int64]. *)
Definition sample_unrepresentable (f : spec_float) : Z := minInt64.

(** The entries in the order of the map's own enumeration. *)
Definition sample_range : RangeOrder :=
  {| range_of := map_to_list; range_of_perm := λ m, reflexivity _ |}.

Definition sample_line (type : LineType) (exchange : string) (channel : option string)
    (payload : string) : StringLine :=
  {| sl_Exchange := exchange; sl_Type := type; sl_Timestamp := 1620000000000000000;
     sl_Channel := channel; sl_Message := payload |}.

(** A processor that holds [sample_def] for (bitmex, trade). *)
Definition sample_processor : rawLineProcessor :=
  {| defs := {[ "bitmex" := {[ "trade" := sample_def ]} ]} |}.

(** A shard of the raw log for bitmex: the Start line, the definition line
    of the trade channel, one message. *)
Definition start_line : StringLine := sample_line LineTypeStart "bitmex" None "".

Definition def_line : StringLine :=
  sample_line LineTypeMessage "bitmex" (Some "trade") sample_def_payload.

Definition msg_line : StringLine :=
  sample_line LineTypeMessage "bitmex" (Some "trade") sample_msg_payload.

Definition sample_slice : list StringLine := [start_line; def_line; msg_line].

(** The typed lines of that shard. *)
Definition typed_start_line : StructLine :=
  {| Exchange := "bitmex"; Type_ := LineTypeStart; Timestamp := 1620000000000000000;
     Channel := None; Message := MsgRaw ""; Definition_ := None |}.

Definition typed_msg_line : StructLine :=
  {| Exchange := "bitmex"; Type_ := LineTypeMessage;
     Timestamp := 1620000000000000000; Channel := Some "trade";
     Message := MsgFields {[ "ts" := VInt64 1620000000000000000;
                             "n" := VInt64 42; "s" := VString "x" ]};
     Definition_ := Some sample_def |}.

(** Lines between a Start line of bitmex and the next message line of
    (bitmex, trade): an end line of bitmex, a message line of another
    exchange and one of another channel. *)
Definition sample_mid : list StringLine :=
  [sample_line (LineTypeOther "end") "bitmex" None "";
   sample_line LineTypeMessage "bitflyer" (Some "executions") sample_def_payload;
   sample_line LineTypeMessage "bitmex" (Some "orderBookL2") sample_def_payload].

(** A request, for a client that is a mere token. *)
Definition sample_param : ReplayRequestParam :=
  {| param_Filter := {[ "bitmex" := ["trade"] ]};
     param_Start := {| unixSec := 1620000000; nsec := 0 |};
     param_End := {| unixSec := 1620000060; nsec := 0 |} |}.


Definition busy_processor : rawLineProcessor :=
  {| defs := {[ "bitmex" := {[ "trade" := sample_def;
                               "orderBookL2" := {[ "price" := "float" ]} ]};
                "bitflyer" := {[ "executions" := {[ "id" := "int" ]} ]} ]} |}.

Definition end_line : StringLine := sample_line (LineTypeOther "end") "bitmex" None "".

Definition no_channel_line : StringLine :=
  sample_line LineTypeMessage "bitmex" None sample_msg_payload.

Definition bad_ts_line : StringLine :=
  sample_line LineTypeMessage "bitmex" (Some "trade") bad_ts_payload.

Definition other_def_line : StringLine :=
  sample_line LineTypeMessage "bitflyer" (Some "executions") sample_def_payload.

Definition other_msg_line : StringLine :=
  sample_line LineTypeMessage "bitflyer" (Some "executions") sample_msg_payload.

Definition mixed_slice : list StringLine :=
  [start_line; sample_line LineTypeStart "bitflyer" None ""; def_line;
   other_def_line; msg_line; other_msg_line].


Definition transport_error : error := foreign_error "context canceled".

(** A message line of (bitmex, trade) whose payload is a JSON array, not a
    definition. *)
Definition undecodable_line : StringLine :=
  sample_line LineTypeMessage "bitmex" (Some "trade") "[1,2]".

(** Parameters beyond the range of [int64] nanoseconds: a start in April
    2262 ([time.Unix(9223372037, 0)]) with an end in 2021, and a start in the
    year 1 with an end in the year 1700. *)
Definition late_param : ReplayRequestParam :=
  {| param_Filter := {[ "bitmex" := ["trade"] ]};
     param_Start := {| unixSec := 9223372037; nsec := 0 |};
     param_End := {| unixSec := 1620000000; nsec := 0 |} |}.

Definition early_param : ReplayRequestParam :=
  {| param_Filter := {[ "bitmex" := ["trade"] ]};
     param_Start := {| unixSec := -62135596800; nsec := 0 |};
     param_End := {| unixSec := -8520336000; nsec := 0 |} |}.

Section Replay.

(** [json.Unmarshal(message, &def)] on a fresh [map[string]string]: the map
    afterwards and the error. *)
Variable json_Unmarshal_def : string → gmap string string * option error.

(** [json.Unmarshal(message, &msgObj)] on a fresh [map[string]interface{}]. *)
Variable json_Unmarshal_obj : string → gmap string value * option error.

(** What [int64(f)] gives when [f] has no [int64] value (Go leaves it to the
    implementation). *)
Variable int64_unrepresentable : spec_float → Z.

(** The order in which [range def] visits a definition. *)
Variable range : RangeOrder.

(** The client, the cancellation context and [copyFilter] are declared in
    other files. *)
Variable Client : Type.
Variable Context : Type.
Variable copyFilter : gmap string (list string) → gmap string (list string) * option error.

(** [int64(f)] *)
Definition int64_of_float64 (f : spec_float) : Z :=
  match f with
  | S754_zero _ => 0
  | S754_finite s m e =>
      let z := truncate s m e in
      if in_int64 z then z else int64_unrepresentable f
  | _ => int64_unrepresentable f
  end.

(** The loop [for name, typ := range def] of [processRawLine], over the
    entries in the order they are visited. *)
Fixpoint convert (entries : list (string * string)) (msgObj : gmap string value)
  : conversion :=
  match entries with
  | [] => Converted msgObj
  | (name, typ) :: rest =>
      match msgObj !! name with
      | Some val =>
          if negb (is_nil val) then
            if bool_decide (typ = "timestamp") || bool_decide (typ = "duration") then
              match val with
              | VString s =>
                  let '(n, serr) := ParseInt s in
                  match serr with
                  | Some e => ConversionError (fmt_Errorf "type conversion" e)
                  | None => convert rest (<[name := VInt64 n]> msgObj)
                  end
              | _ => ConversionPanic "interface conversion: interface {} is not string"
              end
            else if bool_decide (typ = "int") then
              match val with
              | VFloat64 f => convert rest (<[name := VInt64 (int64_of_float64 f)]> msgObj)
              | _ => ConversionPanic "interface conversion: interface {} is not float64"
              end
            else convert rest msgObj
          else convert rest msgObj
      | None => convert rest msgObj
      end
  end.

(** [func (p *rawLineProcessor) processRawLine(line *StringLine)
    (ret StructLine, ok bool, err error)]: the processor afterwards and the
    outcome. *)
Definition processRawLine (p : rawLineProcessor) (line : StringLine)
  : rawLineProcessor * outcome :=
  let p :=
    if bool_decide (sl_Type line = LineTypeStart)
    then {| defs := delete (sl_Exchange line) (defs p) |}
    else p in
  if bool_decide (sl_Type line ≠ LineTypeMessage) then
    (p, Returned {| Exchange := sl_Exchange line;
                    Type_ := sl_Type line;
                    Timestamp := sl_Timestamp line;
                    Channel := sl_Channel line;
                    Message := MsgRaw (sl_Message line);
                    Definition_ := None |} true None)
  else
    let exchange := sl_Exchange line in
    match sl_Channel line with
    | None => (p, Panicked "invalid memory address or nil pointer dereference")
    | Some channel =>
        let message := sl_Message line in
        let p :=
          match defs p !! exchange with
          | Some _ => p
          | None => {| defs := <[exchange := ∅]> (defs p) |}
          end in
        let channels := default ∅ (defs p !! exchange) in
        match channels !! channel with
        | None =>
            let '(def, serr) := json_Unmarshal_def message in
            match serr with
            | Some e =>
                (p, Returned zeroStructLine false
                      (Some (fmt_Errorf "def update unmarshal" e)))
            | None =>
                ({| defs := <[exchange := <[channel := def]> channels]> (defs p) |},
                 Returned zeroStructLine false None)
            end
        | Some def =>
            let '(msgObj, serr) := json_Unmarshal_obj message in
            match serr with
            | Some e =>
                (p, Returned zeroStructLine false
                      (Some (fmt_Errorf "message unmarshal" e)))
            | None =>
                match convert (range def) msgObj with
                | ConversionError e => (p, Returned zeroStructLine false (Some e))
                | ConversionPanic reason => (p, Panicked reason)
                | Converted msgObj =>
                    (p, Returned {| Exchange := exchange;
                                    Type_ := sl_Type line;
                                    Timestamp := sl_Timestamp line;
                                    Channel := sl_Channel line;
                                    Message := MsgFields msgObj;
                                    Definition_ := Some def |} true None)
                end
            end
        end
    end.

(** The processor after a run of lines, whatever each call returned (a
    panic is not recovered from, the state is the one it left). *)
Definition run (p : rawLineProcessor) (lines : list StringLine) : rawLineProcessor :=
  foldl (λ p line, fst (processRawLine p line)) p lines.

(** [ReplayRequest]: [start] and [end] are [int64] nanoseconds. *)
Record ReplayRequest := {
  req_cli : Client;
  req_filter : gmap string (list string);
  req_start : Z;
  req_end : Z;
}.

(** [func setupReplayRequest(cli *Client, param ReplayRequestParam)]: the
    request, or nil, and the error. *)
Definition setupReplayRequest (cli : Client) (param : ReplayRequestParam)
  : option ReplayRequest * option error :=
  let '(filter, serr) := copyFilter (param_Filter param) in
  match serr with
  | Some e => (None, Some e)
  | None =>
      let start := UnixNano (param_Start param) in
      let end_ := UnixNano (param_End param) in
      if end_ <=? start then (None, Some (errors_New "'Start' >= 'End'"))
      else (Some {| req_cli := cli; req_filter := filter;
                    req_start := start; req_end := end_ |}, None)
  end.

(** Modelled from the spec: [RawRequest] and its two fetch primitives are
    declared in another file; [bulkFetch] gives an ordered collection of raw
    lines or an error, [streamFetch] a pull iterator of raw lines or an
    error. *)
Record RawRequest := {
  raw_cli : Client;
  raw_filter : gmap string (list string);
  raw_start : Z;
  raw_end : Z;
  raw_format : option string;
}.

(** [RawRequest{cli: r.cli, filter: r.filter, start: r.start, end: r.end,
    format: &format}] with [format := "json"], as both paths build it. *)
Definition rawRequest_of (r : ReplayRequest) : RawRequest :=
  {| raw_cli := req_cli r; raw_filter := req_filter r;
     raw_start := req_start r; raw_end := req_end r;
     raw_format := Some "json" |}.

Variable RawRequest_DownloadWithContext :
  RawRequest → Context → Z → list StringLine * option error.
Variable RawRequest_StreamWithContext :
  RawRequest → Context → Z → option StringLineIterator * option error.

(** The loop [for i := range slice] of [DownloadWithContext]. *)
Fixpoint download_loop (processor : rawLineProcessor) (slice : list StringLine)
    (result : list StructLine) : download_outcome :=
  match slice with
  | [] => DownloadReturned (Some result) None
  | line :: slice =>
      match processRawLine processor line with
      | (processor, Returned processed ok serr) =>
          if negb ok then
            match serr with
            | Some e => DownloadReturned None (Some e)
            | None => download_loop processor slice result
            end
          else download_loop processor slice (result ++ [processed])
      | (_, Panicked reason) => DownloadPanicked reason
      end
  end.

(** [func (r *ReplayRequest) DownloadWithContext(ctx context.Context,
    concurrency int) ([]StructLine, error)] *)
Definition DownloadWithContext (r : ReplayRequest) (ctx : Context) (concurrency : Z)
  : download_outcome :=
  let rawReq := rawRequest_of r in
  let '(slice, serr) := RawRequest_DownloadWithContext rawReq ctx concurrency in
  match serr with
  | Some e => DownloadReturned None (Some e)
  | None => download_loop newRawLineProcessor slice []
  end.

(** [replayStreamIterator]; its [req] field is never assigned, and [rawItr]
    is an interface value, nil or an iterator. *)
Record replayStreamIterator := {
  rawItr : option StringLineIterator;
  processor : rawLineProcessor;
}.

(** [func newReplayStreamIterator(ctx context.Context, req *ReplayRequest,
    bufferSize int)]: the iterator, or nil, and the error. *)
Definition newReplayStreamIterator (ctx : Context) (req : ReplayRequest) (bufferSize : Z)
  : option replayStreamIterator * option error :=
  let rawRequest := rawRequest_of req in
  match RawRequest_StreamWithContext rawRequest ctx bufferSize with
  | (_, Some e) => (None, Some e)
  | (itr, None) =>
      (Some {| rawItr := itr; processor := newRawLineProcessor |}, None)
  end.

(** The loop [for { ... }] of [Next], with a bound on the number of turns:
    [None] when the bound is reached. *)
Fixpoint Next_loop (fuel : nat) (i : replayStreamIterator)
  : option (replayStreamIterator * next_outcome) :=
  match fuel with
  | O => None
  | S fuel =>
      match rawItr i with
      | None =>
          Some (i, NextPanicked "invalid memory address or nil pointer dereference")
      | Some raw =>
          let '(line, ok, serr, raw) := StringLineIterator_Next raw in
          let i := {| rawItr := Some raw; processor := processor i |} in
          if negb ok then
            match serr with
            | Some e => Some (i, NextReturned None false (Some e))
            | None => Some (i, NextReturned None false None)
            end
          else
            match line with
            | None =>
                Some (i, NextPanicked "invalid memory address or nil pointer dereference")
            | Some line =>
                match processRawLine (processor i) line with
                | (p, Returned processed ok serr) =>
                    let i := {| rawItr := Some raw; processor := p |} in
                    if negb ok then
                      match serr with
                      | Some e => Some (i, NextReturned None false (Some e))
                      | None => Next_loop fuel i
                      end
                    else Some (i, NextReturned (Some processed) true None)
                | (p, Panicked reason) =>
                    Some ({| rawItr := Some raw; processor := p |}, NextPanicked reason)
                end
            end
      end
  end.

(** [func (i *replayStreamIterator) Next()]: the line, or nil, [ok] and the
    error. Every turn of the loop takes one raw line, so one more turn than
    there are pending lines is enough. *)
Definition Next (i : replayStreamIterator)
  : option (replayStreamIterator * next_outcome) :=
  Next_loop (S (length (from_option pending [] (rawItr i)))) i.

(** The caller's loop: call [Next] until it reports [ok == false] (or
    panics), collecting the lines. [None] when the bound is reached. *)
Fixpoint drain (fuel : nat) (i : replayStreamIterator)
  : option (list StructLine * stream_end) :=
  match fuel with
  | O => None
  | S fuel =>
      match Next i with
      | None => None
      | Some (i, NextReturned (Some line) true _) =>
          match drain fuel i with
          | Some (lines, e) => Some (line :: lines, e)
          | None => None
          end
      | Some (_, NextReturned _ _ (Some e)) => Some ([], Errored e)
      | Some (_, NextReturned _ _ None) => Some ([], Exhausted)
      | Some (_, NextPanicked reason) => Some ([], StreamPanicked reason)
      end
  end.

(** [func (r *ReplayRequest) StreamWithContext(ctx context.Context,
    bufferSize int) (StructLineIterator, error)] *)
Definition StreamWithContext (r : ReplayRequest) (ctx : Context) (bufferSize : Z)
  : option replayStreamIterator * option error :=
  match newReplayStreamIterator ctx r bufferSize with
  | (_, Some e) => (None, Some e)
  | (itr, None) => (itr, None)
  end.

(** [context.Background()] and the two default sizes, declared in other
    files. *)
Variable context_Background : Context.
Variable downloadBatchSize : Z.
Variable defaultBufferSize : Z.

(** [func (r *ReplayRequest) DownloadConcurrency(concurrency int)] *)
Definition DownloadConcurrency (r : ReplayRequest) (concurrency : Z) : download_outcome :=
  DownloadWithContext r context_Background concurrency.

(** [func (r *ReplayRequest) Download()] *)
Definition Download (r : ReplayRequest) : download_outcome :=
  DownloadWithContext r context_Background downloadBatchSize.

(** [func (r *ReplayRequest) Stream()] *)
Definition Stream (r : ReplayRequest) : option replayStreamIterator * option error :=
  StreamWithContext r context_Background defaultBufferSize.

(** [func (r *ReplayRequest) StreamBufferSize(bufferSize int)] *)
Definition StreamBufferSize (r : ReplayRequest) (bufferSize : Z)
  : option replayStreamIterator * option error :=
  StreamWithContext r context_Background bufferSize.

(** [func (c *Client) Replay(param ReplayRequestParam)] *)
Definition Client_Replay (c : Client) (param : ReplayRequestParam)
  : option ReplayRequest * option error :=
  setupReplayRequest c param.

(** ** What the conversion loop computes *)

(** The definition stored for a pair (exchange, channel), if any. *)
Definition definition_of (p : rawLineProcessor) (exchange channel : string)
  : option (gmap string string) :=
  defs p !! exchange ≫= λ channels, channels !! channel.

(** How one turn of the conversion loop treats a value found in the
    message. *)
Inductive field_result :=
| FieldValue (v : value)
| FieldError (e : error)
| FieldPanic (reason : string).

Definition convert_value (typ : string) (val : value) : field_result :=
  if is_nil val then FieldValue val
  else if bool_decide (typ = "timestamp") || bool_decide (typ = "duration") then
    match val with
    | VString s =>
        match ParseInt s with
        | (n, None) => FieldValue (VInt64 n)
        | (_, Some e) => FieldError (fmt_Errorf "type conversion" e)
        end
    | _ => FieldPanic "interface conversion: interface {} is not string"
    end
  else if bool_decide (typ = "int") then
    match val with
    | VFloat64 f => FieldValue (VInt64 (int64_of_float64 f))
    | _ => FieldPanic "interface conversion: interface {} is not float64"
    end
  else FieldValue val.

(** The field mapping in which every field is coerced by the tag its name
    has in the definition. *)
Definition coerce (def : gmap string string) (msgObj : gmap string value)
  : gmap string value :=
  map_imap (λ name val,
    Some match def !! name with
         | Some typ =>
             match convert_value typ val with FieldValue v => v | _ => val end
         | None => val
         end) msgObj.

(** Every field of the message that the definition names converts, without
    an error or a panic. *)
Definition convertible (def : gmap string string) (msgObj : gmap string value) : Prop :=
  ∀ name typ val, def !! name = Some typ → msgObj !! name = Some val →
    ∃ v, convert_value typ val = FieldValue v.

(** The value has the shape its tag expects: nil, or a string that
    [ParseInt] accepts under "timestamp" and "duration", or a [float64] under
    "int"; anything under another tag. *)
Definition well_shaped (typ : string) (val : value) : bool :=
  is_nil val ||
  if bool_decide (typ = "timestamp") || bool_decide (typ = "duration") then
    match val with
    | VString s => bool_decide (snd (ParseInt s) = None)
    | _ => false
    end
  else if bool_decide (typ = "int") then
    match val with VFloat64 _ => true | _ => false end
  else true.

(** The same for every field of a message that a definition names, as a
    check that runs over the entries of the definition. *)
Definition well_shaped_fields (def : gmap string string) (msgObj : gmap string value)
  : bool :=
  forallb (λ '(name, typ), from_option (well_shaped typ) true (msgObj !! name))
    (map_to_list def).

(** The tag asks for no conversion. *)
Definition pass_through_tag (typ : string) : bool :=
  negb (bool_decide (typ = "timestamp") || bool_decide (typ = "duration")
        || bool_decide (typ = "int")).

(** The definition of a pair after a call of [processRawLine], from the
    definition before and the line. *)
Definition definition_after (p : rawLineProcessor) (line : StringLine)
    (exchange channel : string) : option (gmap string string) :=
  if decide (exchange = sl_Exchange line) then
    match sl_Type line with
    | LineTypeStart => None
    | LineTypeMessage =>
        if decide (sl_Channel line = Some channel) then
          match definition_of p exchange channel with
          | Some def => Some def
          | None =>
              match json_Unmarshal_def (sl_Message line) with
              | (def, None) => Some def
              | (_, Some _) => None
              end
          end
        else definition_of p exchange channel
    | LineTypeOther _ => definition_of p exchange channel
    end
  else definition_of p exchange channel.

(** The outcomes of the successive calls of [processRawLine] on a run of
    lines, each call starting from the table the one before left. *)
Fixpoint outcomes (p : rawLineProcessor) (lines : list StringLine) : list outcome :=
  match lines with
  | [] => []
  | line :: lines =>
      let '(p, o) := processRawLine p line in
      o :: outcomes p lines
  end.

(** The typed lines among outcomes: those returned with [ok == true]. *)
Definition emitted (os : list outcome) : list StructLine :=
  omap (λ o, match o with Returned ret true _ => Some ret | _ => None end) os.

(** The call returned, and returned no error. *)
Definition no_failure (o : outcome) : Prop :=
  match o with Returned _ _ None => True | _ => False end.

(** The typed iterator over a run of raw lines that ends gracefully. *)
Definition iterator_over (slice : list StringLine) (p : rawLineProcessor)
  : replayStreamIterator :=
  {| rawItr := Some {| pending := slice; failure := None |}; processor := p |}.

(** What draining the stream gives, as the download path would return it. *)
Definition download_of_drained (lines : list StructLine) (e : stream_end)
  : download_outcome :=
  match e with
  | Exhausted => DownloadReturned (Some lines) None
  | Errored err => DownloadReturned None (Some err)
  | StreamPanicked reason => DownloadPanicked reason
  end.

(** The typed iterator over raw lines that end with [failure] (nil for a
    graceful end). *)
Definition iterator_with (slice : list StringLine) (failure : option error)
    (p : rawLineProcessor) : replayStreamIterator :=
  {| rawItr := Some {| pending := slice; failure := failure |}; processor := p |}.

(** The typed line of a line that is not a message line: the fields of the
    raw line, the payload as it is, no definition. *)
Definition verbatim (line : StringLine) : StructLine :=
  {| Exchange := sl_Exchange line; Type_ := sl_Type line;
     Timestamp := sl_Timestamp line; Channel := sl_Channel line;
     Message := MsgRaw (sl_Message line); Definition_ := None |}.

(** What a raw line and its typed line have in common: exchange, type,
    timestamp and channel. *)
Definition raw_header (line : StringLine) : string * LineType * Z * option string :=
  (sl_Exchange line, sl_Type line, sl_Timestamp line, sl_Channel line).

Definition typed_header (ret : StructLine) : string * LineType * Z * option string :=
  (Exchange ret, Type_ ret, Timestamp ret, Channel ret).

(** The call returned [ok == false] and no error: the line was taken as a
    definition. *)
Definition skipped (o : outcome) : Prop :=
  match o with Returned _ false None => True | _ => False end.

(** How a stream ends once its raw lines are through: gracefully, or with
    the transport error of the raw iterator. *)
Definition end_of (failure : option error) : stream_end :=
  match failure with
  | None => Exhausted
  | Some e => Errored e
  end.

(** What a consumer of the stream gets, from the outcomes of the calls on
    the raw lines: the typed lines up to the first failure and how the
    stream ends. *)
Fixpoint drained (os : list outcome) (failure : option error)
  : list StructLine * stream_end :=
  match os with
  | [] => ([], end_of failure)
  | Returned ret true _ :: os =>
      let '(lines, e) := drained os failure in (ret :: lines, e)
  | Returned _ false None :: os => drained os failure
  | Returned _ false (Some e) :: _ => ([], Errored e)
  | Panicked reason :: _ => ([], StreamPanicked reason)
  end.

(** The nanoseconds from the epoch to an instant, as a number. *)
Definition nanoseconds (t : Time) : Z := unixSec t * 10 ^ 9 + nsec t.

(** [setupClient] and its parameter are declared in another file. *)
Variable ClientParam : Type.
Variable setupClient : ClientParam → Client * option error.

(** [func Replay(clientParam ClientParam, param ReplayRequestParam)] *)
Definition Replay (clientParam : ClientParam) (param : ReplayRequestParam)
  : option ReplayRequest * option error :=
  let '(cliSetting, serr) := setupClient clientParam in
  match serr with
  | Some e => (None, Some e)
  | None => setupReplayRequest cliSetting param
  end.

Lemma convert_cons name typ rest (msgObj : gmap string value) :
  convert ((name, typ) :: rest) msgObj =
    match msgObj !! name with
    | None => convert rest msgObj
    | Some val =>
        match convert_value typ val with
        | FieldValue v => convert rest (<[name := v]> msgObj)
        | FieldError e => ConversionError e
        | FieldPanic reason => ConversionPanic reason
        end
    end.
Proof.
  cbn [convert]. destruct (msgObj !! name) as [val|] eqn:Hval; [|done].
  unfold convert_value.
  destruct (is_nil val) eqn:Hnil; cbn [negb].
  { by rewrite insert_id. }
  destruct (bool_decide (typ = "timestamp") || bool_decide (typ = "duration")).
  { destruct val; try done. by destruct (ParseInt s) as [n [e|]]. }
  destruct (bool_decide (typ = "int")).
  { by destruct val. }
  by rewrite insert_id.
Qed.

Lemma lookup_coerce def (msgObj : gmap string value) name :
  coerce def msgObj !! name =
    (λ val, match def !! name with
            | Some typ =>
                match convert_value typ val with FieldValue v => v | _ => val end
            | None => val
            end) <$> msgObj !! name.
Proof.
  unfold coerce. rewrite map_lookup_imap.
  by destruct (msgObj !! name).
Qed.

(** The loop over entries with distinct names, when every named field
    converts: the result is the coerced mapping. *)
Lemma convert_Converted entries (msgObj : gmap string value) :
  NoDup entries.*1 →
  (∀ name typ val, (name, typ) ∈ entries → msgObj !! name = Some val →
     ∃ v, convert_value typ val = FieldValue v) →
  convert entries msgObj = Converted (coerce (list_to_map entries) msgObj).
Proof.
  revert msgObj. induction entries as [|[name typ] rest IH]; intros msgObj Hnd Hok.
  - cbn. f_equal. apply map_eq. intros i. rewrite lookup_coerce.
    rewrite lookup_empty. by destruct (msgObj !! i).
  - rewrite convert_cons. cbn in Hnd. apply NoDup_cons in Hnd as [Hfresh Hnd].
    assert (Hrest : (list_to_map rest : gmap string string) !! name = None).
    { by apply not_elem_of_list_to_map_1. }
    destruct (msgObj !! name) as [val|] eqn:Hval.
    + destruct (Hok name typ val) as [v Hv]; [left|done|]. rewrite Hv.
      rewrite IH; [|done|].
      * f_equal. apply map_eq. intros i. rewrite !lookup_coerce. cbn [list_to_map].
        destruct (decide (i = name)) as [->|Hne].
        -- rewrite !lookup_insert_eq, Hrest, Hval. cbn.
           by rewrite lookup_insert_eq, Hv.
        -- rewrite (lookup_insert_ne msgObj) by congruence.
           destruct (msgObj !! i); [cbn|done].
           by rewrite lookup_insert_ne by congruence.
      * intros name' typ' val' Hin Hlk.
        assert (name' ≠ name).
        { intros ->. apply Hfresh. apply list_elem_of_fmap. by exists (name, typ'). }
        rewrite lookup_insert_ne in Hlk by done.
        apply (Hok name' typ' val'); [by right|done].
    + rewrite IH; [|done|].
      * f_equal. apply map_eq. intros i. rewrite !lookup_coerce. cbn [list_to_map].
        destruct (decide (i = name)) as [->|Hne].
        -- by rewrite Hval.
        -- destruct (msgObj !! i); [cbn|done].
           by rewrite lookup_insert_ne by congruence.
      * intros name' typ' val' Hin Hlk. apply (Hok name' typ' val'); [by right|done].
Qed.

(** Whatever the loop does, it does because of a field of the message that
    an entry names: an error or a panic comes from such a field, and a
    normal end means that every such field converted. *)
Lemma convert_inv entries (msgObj : gmap string value) :
  NoDup entries.*1 →
  match convert entries msgObj with
  | Converted _ =>
      ∀ name typ val, (name, typ) ∈ entries → msgObj !! name = Some val →
        ∃ v, convert_value typ val = FieldValue v
  | ConversionError e =>
      ∃ name typ val, (name, typ) ∈ entries ∧ msgObj !! name = Some val ∧
        convert_value typ val = FieldError e
  | ConversionPanic reason =>
      ∃ name typ val, (name, typ) ∈ entries ∧ msgObj !! name = Some val ∧
        convert_value typ val = FieldPanic reason
  end.
Proof.
  revert msgObj. induction entries as [|[name typ] rest IH]; intros msgObj Hnd.
  - cbn. intros ??? Hin. by apply elem_of_nil in Hin.
  - cbn in Hnd. apply NoDup_cons in Hnd as [Hfresh Hnd].
    assert (Hother : ∀ name' typ', (name', typ') ∈ rest → name' ≠ name).
    { intros name' typ' Hin ->. apply Hfresh. apply list_elem_of_fmap.
      by exists (name, typ'). }
    rewrite convert_cons.
    destruct (msgObj !! name) as [val|] eqn:Hval.
    + destruct (convert_value typ val) as [v|e|reason] eqn:Hv.
      * specialize (IH (<[name := v]> msgObj) Hnd).
        destruct (convert rest (<[name := v]> msgObj)) as [m'|e|reason].
        -- intros name' typ' val' Hin Hlk.
           apply elem_of_cons in Hin as [[= -> ->]|Hin]; [by simplify_eq; eauto|].
           apply (IH name' typ' val' Hin).
           rewrite lookup_insert_ne; [done|]. by intros ->; eapply Hother.
        -- destruct IH as (name' & typ' & val' & Hin & Hlk & Hcv).
           exists name', typ', val'. split; [by right|]. split; [|done].
           rewrite lookup_insert_ne in Hlk; [done|]. by intros ->; eapply Hother.
        -- destruct IH as (name' & typ' & val' & Hin & Hlk & Hcv).
           exists name', typ', val'. split; [by right|]. split; [|done].
           rewrite lookup_insert_ne in Hlk; [done|]. by intros ->; eapply Hother.
      * exists name, typ, val. split; [by left|done].
      * exists name, typ, val. split; [by left|done].
    + specialize (IH msgObj Hnd).
      destruct (convert rest msgObj) as [m'|e|reason].
      * intros name' typ' val' Hin Hlk.
        apply elem_of_cons in Hin as [[= -> ->]|Hin]; [congruence|].
        by apply (IH name' typ' val').
      * destruct IH as (name' & typ' & val' & Hin & Hlk & Hcv).
        exists name', typ', val'. split; [by right|done].
      * destruct IH as (name' & typ' & val' & Hin & Hlk & Hcv).
        exists name', typ', val'. split; [by right|done].
Qed.

(** [ParseInt] reads a decimal numeral within the [int64] range as the
    number it writes. *)
Lemma digit_of_bounds c d : digit_of c = Some d → 0 ≤ d ≤ 9.
Proof.
  unfold digit_of. destruct (_ && _) eqn:Hc; [|done].
  intros [= <-]. apply andb_true_iff in Hc as [?%Z.leb_le ?%Z.leb_le]. lia.
Qed.

Lemma decimal_value_ge s : ∀ acc v,
  0 ≤ acc → decimal_value s acc = Some v → acc ≤ v.
Proof.
  induction s as [|c rest IH]; intros acc v Hacc; cbn.
  - intros [= <-]. lia.
  - destruct (digit_of c) as [d|] eqn:Hd; [|done].
    apply digit_of_bounds in Hd. intros Hv%IH; lia.
Qed.

Lemma ParseUint_loop_decimal s : ∀ n v,
  0 ≤ n → decimal_value s n = Some v → v ≤ maxUint64 →
  ParseUint_loop s n = (v, None).
Proof.
  induction s as [|c rest IH]; intros n v Hn; cbn.
  - by intros [= <-].
  - destruct (digit_of c) as [d|] eqn:Hd; [|done].
    pose proof (digit_of_bounds _ _ Hd) as Hdb. intros Hv Hmax.
    pose proof (decimal_value_ge rest (n * 10 + d) v ltac:(lia) Hv) as Hge.
    assert (Hcut : n < maxUint64 / 10 + 1).
    { apply Z.lt_succ_r, Z.div_le_lower_bound; lia. }
    destruct (Z.leb_spec (maxUint64 / 10 + 1) n); [lia|].
    destruct (Z.ltb_spec maxUint64 (n * 10 + d)); [lia|].
    apply IH; [lia|done|done].
Qed.

Lemma ParseInt_decimal s v :
  s ≠ "" → decimal_value s 0 = Some v → v ≤ maxInt64 →
  ParseInt s = (v, None).
Proof.
  destruct s as [|c rest]; [done|]. intros _ Hv Hmax.
  assert (Hdigit : is_Some (digit_of c)).
  { cbn in Hv. destruct (digit_of c); [by eauto|done]. }
  assert (Hminus : bool_decide (c = "-"%char) = false).
  { apply bool_decide_eq_false. intros ->. by destruct Hdigit. }
  assert (Hplus : bool_decide (c = "+"%char) = false).
  { apply bool_decide_eq_false. intros ->. by destruct Hdigit. }
  unfold ParseInt. rewrite Hminus, Hplus. cbn [orb negb andb].
  unfold ParseUint. rewrite (ParseUint_loop_decimal (String c rest) 0 v); try done.
  - unfold maxInt64 in Hmax. destruct (Z.leb_spec (2 ^ 63) v); [lia|done].
  - unfold maxInt64, maxUint64 in *. lia.
Qed.

Lemma range_NoDup (def : gmap string string) : NoDup (range def).*1.
Proof.
  rewrite (range_of_perm range def). apply NoDup_fst_map_to_list.
Qed.

Lemma elem_of_range (def : gmap string string) name typ :
  (name, typ) ∈ range def ↔ def !! name = Some typ.
Proof. by rewrite (range_of_perm range def), elem_of_map_to_list. Qed.

Lemma list_to_map_range (def : gmap string string) :
  list_to_map (range def) = def.
Proof.
  rewrite <- (list_to_map_to_list def) at 2.
  apply list_to_map_proper; [apply range_NoDup|apply range_of_perm].
Qed.

Lemma well_shaped_convert_value typ val :
  well_shaped typ val = true → ∃ v, convert_value typ val = FieldValue v.
Proof.
  unfold well_shaped, convert_value.
  destruct (is_nil val); [by eauto|]. cbn [orb].
  destruct (bool_decide (typ = "timestamp") || bool_decide (typ = "duration")).
  { destruct val; try done. destruct (ParseInt s) as [n [e|]]; [|by eauto].
    by intros ?%bool_decide_eq_true. }
  destruct (bool_decide (typ = "int")); [|by eauto].
  destruct val; try done. by eauto.
Qed.

Lemma well_shaped_fields_spec (def : gmap string string) (msgObj : gmap string value) :
  well_shaped_fields def msgObj = true →
  ∀ name typ val, def !! name = Some typ → msgObj !! name = Some val →
    well_shaped typ val = true.
Proof.
  unfold well_shaped_fields. rewrite forallb_forall.
  intros Hall name typ val Hdef Hval.
  specialize (Hall (name, typ)). cbn in Hall. rewrite Hval in Hall.
  apply Hall. apply list_elem_of_In. by apply elem_of_map_to_list.
Qed.

(** [truncate] rounds toward zero: the magnitude is the integer part of
    [m * 2^e]. *)
Lemma truncate_spec s m e :
  let z := truncate s m e in
  (0 ≤ e → Z.abs z = Z.pos m * 2 ^ e) ∧
  (e < 0 → Z.abs z * 2 ^ (- e) ≤ Z.pos m < (Z.abs z + 1) * 2 ^ (- e)) ∧
  (s = true → z ≤ 0) ∧ (s = false → 0 ≤ z).
Proof.
  unfold truncate. cbn zeta.
  assert (H2 : 0 < 2 ^ (- e) ∨ 0 ≤ e) by (destruct (Z.le_gt_cases 0 e); [by right|left; apply Z.pow_pos_nonneg; lia]).
  destruct (Z.leb_spec 0 e) as [He|He].
  - assert (0 ≤ Z.pos m * 2 ^ e) by (apply Z.mul_nonneg_nonneg; [lia|apply Z.pow_nonneg; lia]).
    destruct s; repeat split; intros; try lia.
  - destruct H2 as [H2|]; [|lia].
    pose proof (Z.div_pos (Z.pos m) (2 ^ (- e)) ltac:(lia) H2) as Hq.
    pose proof (Z.mul_div_le (Z.pos m) (2 ^ (- e)) H2) as Hlo.
    pose proof (Z.mul_succ_div_gt (Z.pos m) (2 ^ (- e)) H2) as Hhi.
    destruct s; repeat split; intros; try lia.
Qed.

(** The three ways [processRawLine] goes, by the line and the table. *)
Lemma processRawLine_not_message p line :
  sl_Type line ≠ LineTypeMessage →
  processRawLine p line =
    ((if bool_decide (sl_Type line = LineTypeStart)
      then {| defs := delete (sl_Exchange line) (defs p) |} else p),
     Returned {| Exchange := sl_Exchange line; Type_ := sl_Type line;
                 Timestamp := sl_Timestamp line; Channel := sl_Channel line;
                 Message := MsgRaw (sl_Message line); Definition_ := None |}
       true None).
Proof. intros Hty. unfold processRawLine. by rewrite (bool_decide_eq_true_2 _ Hty). Qed.

Lemma processRawLine_definition p line channel :
  sl_Type line = LineTypeMessage →
  sl_Channel line = Some channel →
  definition_of p (sl_Exchange line) channel = None →
  processRawLine p line =
    let channels := default ∅ (defs p !! sl_Exchange line) in
    match json_Unmarshal_def (sl_Message line) with
    | (_, Some e) =>
        ({| defs := <[sl_Exchange line := channels]> (defs p) |},
         Returned zeroStructLine false (Some (fmt_Errorf "def update unmarshal" e)))
    | (def, None) =>
        ({| defs := <[sl_Exchange line := <[channel := def]> channels]> (defs p) |},
         Returned zeroStructLine false None)
    end.
Proof.
  intros Hty Hch Hnone. unfold processRawLine, definition_of in *.
  rewrite Hty, Hch.
  rewrite (bool_decide_eq_false_2 (LineTypeMessage = LineTypeStart)) by discriminate.
  rewrite (bool_decide_eq_false_2 (LineTypeMessage ≠ LineTypeMessage))
    by (intros H; by apply H).
  destruct p as [table]. cbn in *.
  destruct (table !! sl_Exchange line) as [channels|] eqn:Hex; cbn in *.
  - rewrite Hex. cbn. rewrite Hnone.
    destruct (json_Unmarshal_def (sl_Message line)) as [def [e|]]; [|done].
    by rewrite insert_id.
  - rewrite lookup_insert_eq. cbn. rewrite lookup_empty.
    destruct (json_Unmarshal_def (sl_Message line)) as [def [e|]]; [done|].
    by rewrite insert_insert_eq.
Qed.

Lemma processRawLine_message p line channel def :
  sl_Type line = LineTypeMessage →
  sl_Channel line = Some channel →
  definition_of p (sl_Exchange line) channel = Some def →
  processRawLine p line =
    match json_Unmarshal_obj (sl_Message line) with
    | (_, Some e) =>
        (p, Returned zeroStructLine false (Some (fmt_Errorf "message unmarshal" e)))
    | (msgObj, None) =>
        match convert (range def) msgObj with
        | ConversionError e => (p, Returned zeroStructLine false (Some e))
        | ConversionPanic reason => (p, Panicked reason)
        | Converted fields =>
            (p, Returned {| Exchange := sl_Exchange line; Type_ := LineTypeMessage;
                            Timestamp := sl_Timestamp line; Channel := Some channel;
                            Message := MsgFields fields; Definition_ := Some def |}
                  true None)
        end
    end.
Proof.
  intros Hty Hch Hdef. unfold processRawLine, definition_of in *.
  rewrite Hty, Hch.
  rewrite (bool_decide_eq_false_2 (LineTypeMessage = LineTypeStart)) by discriminate.
  rewrite (bool_decide_eq_false_2 (LineTypeMessage ≠ LineTypeMessage))
    by (intros H; by apply H).
  destruct (defs p !! sl_Exchange line) as [channels|] eqn:Hex; [|done].
  cbn in *. rewrite Hex. cbn. rewrite Hdef.
  by destruct (json_Unmarshal_obj (sl_Message line)) as [msgObj [e|]].
Qed.

(** ** The claims about [processRawLine] *)

(** C1: a message line of a pair that has a definition, whose named fields
    have the shapes their tags expect, is emitted with the definition
    attached and with the coerced field mapping: a "timestamp" or "duration"
    string becomes the [int64] that [ParseInt] reads, an "int" float becomes
    the [int64] obtained by truncation, every other field keeps its decoded
    value. *)
Theorem processRawLine_coerces p line channel def msgObj :
  sl_Type line = LineTypeMessage →
  sl_Channel line = Some channel →
  definition_of p (sl_Exchange line) channel = Some def →
  json_Unmarshal_obj (sl_Message line) = (msgObj, None) →
  (∀ name typ val, def !! name = Some typ → msgObj !! name = Some val →
     well_shaped typ val = true) →
  ∃ fields,
    processRawLine p line =
      (p, Returned {| Exchange := sl_Exchange line; Type_ := LineTypeMessage;
                      Timestamp := sl_Timestamp line; Channel := Some channel;
                      Message := MsgFields fields; Definition_ := Some def |}
            true None) ∧
    fields = coerce def msgObj ∧
    (∀ name typ s n, def !! name = Some typ →
       typ = "timestamp" ∨ typ = "duration" →
       msgObj !! name = Some (VString s) → ParseInt s = (n, None) →
       fields !! name = Some (VInt64 n)) ∧
    (∀ name typ s v, def !! name = Some typ →
       typ = "timestamp" ∨ typ = "duration" →
       msgObj !! name = Some (VString s) →
       s ≠ "" → decimal_value s 0 = Some v → v ≤ maxInt64 →
       fields !! name = Some (VInt64 v)) ∧
    (∀ name f, def !! name = Some "int" → msgObj !! name = Some (VFloat64 f) →
       fields !! name = Some (VInt64 (int64_of_float64 f))) ∧
    (∀ s m e, in_int64 (truncate s m e) = true →
       int64_of_float64 (S754_finite s m e) = truncate s m e) ∧
    (∀ name, def !! name = None ∨
             (∃ typ, def !! name = Some typ ∧ pass_through_tag typ = true) →
       fields !! name = msgObj !! name).
Proof.
  intros Hty Hch Hdef Hmsg Hshape.
  exists (coerce def msgObj).
  split; [|split; [done|]].
  { rewrite (processRawLine_message p line channel def) by done.
    rewrite Hmsg, convert_Converted.
    - by rewrite list_to_map_range.
    - apply range_NoDup.
    - intros name typ val Hin%elem_of_range Hval.
      apply well_shaped_convert_value. by eapply Hshape. }
  assert (Hparsed : ∀ name typ s n, def !! name = Some typ →
            typ = "timestamp" ∨ typ = "duration" →
            msgObj !! name = Some (VString s) → ParseInt s = (n, None) →
            coerce def msgObj !! name = Some (VInt64 n)).
  { intros name typ s n Hn Htyp Hval Hparse. rewrite lookup_coerce, Hval, Hn. cbn.
    unfold convert_value. cbn [is_nil].
    assert (bool_decide (typ = "timestamp") || bool_decide (typ = "duration") = true) as ->.
    { destruct Htyp as [-> | ->]; done. }
    by rewrite Hparse. }
  split; [done|]. split.
  { intros name typ s v Hn Htyp Hval Hs Hv Hmax.
    apply (Hparsed name typ s v); try done. by apply ParseInt_decimal. }
  repeat split.
  - intros name f Hn Hval. by rewrite lookup_coerce, Hval, Hn.
  - intros s m e Hin. unfold int64_of_float64. by rewrite Hin.
  - intros name [Hn|(typ & Hn & Htag)]; rewrite lookup_coerce, Hn.
    + by destruct (msgObj !! name).
    + destruct (msgObj !! name) as [val|]; [cbn|done]. f_equal.
      unfold pass_through_tag in Htag. apply negb_true_iff in Htag.
      apply orb_false_iff in Htag as [Hts Hint].
      unfold convert_value. rewrite Hts, Hint. by destruct (is_nil val).
Qed.

(** Every error [convert] reports is a "type conversion" error built from
    the error of [ParseInt]. *)
Lemma convert_value_error typ val e :
  convert_value typ val = FieldError e →
  ∃ s n cause, val = VString s ∧ ParseInt s = (n, Some cause) ∧
    (typ = "timestamp" ∨ typ = "duration") ∧ e = fmt_Errorf "type conversion" cause.
Proof.
  unfold convert_value. destruct (is_nil val); [done|].
  destruct (bool_decide (typ = "timestamp") || bool_decide (typ = "duration")) eqn:Htyp.
  - destruct val; try done. destruct (ParseInt s) as [n [cause|]] eqn:Hp; [|done].
    intros [= <-]. exists s, n, cause. repeat split; try done.
    apply orb_true_iff in Htyp as [H%bool_decide_eq_true|H%bool_decide_eq_true]; eauto.
  - destruct (bool_decide (typ = "int")); [by destruct val|done].
Qed.

Lemma convert_error_is_DecodeError (def : gmap string string) msgObj e :
  convert (range def) msgObj = ConversionError e → is_DecodeError e = true.
Proof.
  intros Hc. pose proof (convert_inv (range def) msgObj (range_NoDup def)) as Hinv.
  rewrite Hc in Hinv. destruct Hinv as (name & typ & val & _ & _ & Hv).
  apply convert_value_error in Hv as (s & n & cause & _ & _ & _ & ->). done.
Qed.

(** The table after a call, entry by entry. *)
Lemma processRawLine_other_exchange p line exchange :
  exchange ≠ sl_Exchange line →
  defs (processRawLine p line).1 !! exchange = defs p !! exchange.
Proof.
  intros Hne. unfold processRawLine.
  repeat (case_bool_decide || case_match); simplify_eq; cbn;
    rewrite ?lookup_insert_ne, ?lookup_delete_ne by done; done.
Qed.

Lemma definition_of_other_exchange p line exchange channel :
  exchange ≠ sl_Exchange line →
  definition_of (processRawLine p line).1 exchange channel
    = definition_of p exchange channel.
Proof.
  intros Hne. unfold definition_of. by rewrite processRawLine_other_exchange.
Qed.

Lemma processRawLine_start_deletes p line :
  sl_Type line = LineTypeStart →
  defs (processRawLine p line).1 = delete (sl_Exchange line) (defs p).
Proof.
  intros Hty. rewrite processRawLine_not_message by (rewrite Hty; discriminate).
  by rewrite bool_decide_eq_true_2.
Qed.

Lemma processRawLine_other_type p line :
  sl_Type line ≠ LineTypeStart → sl_Type line ≠ LineTypeMessage →
  (processRawLine p line).1 = p.
Proof.
  intros Hs Hm. rewrite processRawLine_not_message by done.
  by rewrite bool_decide_eq_false_2.
Qed.

Lemma processRawLine_nil_channel p line :
  sl_Type line = LineTypeMessage → sl_Channel line = None →
  processRawLine p line =
    (p, Panicked "invalid memory address or nil pointer dereference").
Proof.
  intros Hty Hch. unfold processRawLine. rewrite Hty, Hch.
  rewrite (bool_decide_eq_false_2 (LineTypeMessage = LineTypeStart)) by discriminate.
  by rewrite (bool_decide_eq_false_2 (LineTypeMessage ≠ LineTypeMessage))
    by (intros H; by apply H).
Qed.

(** C3: a message line of a pair that has no definition is decoded as the
    definition itself: it is stored for the pair and nothing is emitted; a
    payload that does not decode gives a decode error, nothing is emitted and
    no definition is stored. *)
Theorem processRawLine_stores_definition p line channel :
  sl_Type line = LineTypeMessage →
  sl_Channel line = Some channel →
  definition_of p (sl_Exchange line) channel = None →
  ∃ p' err,
    processRawLine p line = (p', Returned zeroStructLine false err) ∧
    match json_Unmarshal_def (sl_Message line) with
    | (def, None) =>
        err = None ∧ definition_of p' (sl_Exchange line) channel = Some def
    | (_, Some cause) =>
        err = Some (fmt_Errorf "def update unmarshal" cause) ∧
        is_DecodeError (fmt_Errorf "def update unmarshal" cause) = true ∧
        definition_of p' (sl_Exchange line) channel = None
    end.
Proof.
  intros Hty Hch Hnone.
  rewrite (processRawLine_definition p line channel) by done. cbn zeta.
  destruct (json_Unmarshal_def (sl_Message line)) as [def [cause|]];
    eexists _, _; (split; [reflexivity|]); unfold definition_of in *; cbn;
    rewrite lookup_insert_eq; cbn.
  - repeat split. by destruct (defs p !! sl_Exchange line).
  - split; [done|]. by rewrite lookup_insert_eq.
Qed.

Lemma processRawLine_message_table p line channel def :
  sl_Type line = LineTypeMessage →
  sl_Channel line = Some channel →
  definition_of p (sl_Exchange line) channel = Some def →
  (processRawLine p line).1 = p.
Proof.
  intros Hty Hch Hdef. rewrite (processRawLine_message p line channel def) by done.
  destruct (json_Unmarshal_obj (sl_Message line)) as [msgObj [e|]]; [done|].
  by destruct (convert (range def) msgObj).
Qed.

Lemma definition_of_processRawLine p line exchange channel :
  definition_of (processRawLine p line).1 exchange channel
    = definition_after p line exchange channel.
Proof.
  unfold definition_after.
  destruct (decide (exchange = sl_Exchange line)) as [->|Hne];
    [|by apply definition_of_other_exchange].
  destruct (sl_Type line) as [| |other] eqn:Hty.
  - unfold definition_of. rewrite processRawLine_start_deletes by done.
    by rewrite lookup_delete_eq.
  - destruct (sl_Channel line) as [c|] eqn:Hch.
    + destruct (definition_of p (sl_Exchange line) c) as [def|] eqn:Hdef.
      * rewrite (processRawLine_message_table p line c def) by done.
        destruct (decide (Some c = Some channel)) as [[= ->]|Hc]; [by rewrite Hdef|done].
      * rewrite (processRawLine_definition p line c) by done. cbn zeta.
        unfold definition_of in *.
        destruct (json_Unmarshal_def (sl_Message line)) as [def [e|]]; cbn;
          rewrite lookup_insert_eq; cbn.
        -- destruct (decide (Some c = Some channel)) as [[= ->]|Hc].
           ++ rewrite Hdef. by destruct (defs p !! sl_Exchange line).
           ++ by destruct (defs p !! sl_Exchange line).
        -- destruct (decide (Some c = Some channel)) as [[= ->]|Hc].
           ++ by rewrite Hdef, lookup_insert_eq.
           ++ rewrite lookup_insert_ne by congruence.
              by destruct (defs p !! sl_Exchange line).
    + rewrite processRawLine_nil_channel by done.
      by rewrite decide_False by done.
  - by rewrite processRawLine_other_type by (rewrite Hty; discriminate).
Qed.

(** [processRawLine] never returns an error with [ok == true]. *)
Lemma processRawLine_error_not_ok p line ret e :
  (processRawLine p line).2 ≠ Returned ret true (Some e).
Proof.
  unfold processRawLine.
  repeat (case_bool_decide || case_match); by intros [=].
Qed.

(** Every error [processRawLine] returns is a decode error. *)
Lemma processRawLine_error_is_DecodeError p line ret ok e :
  (processRawLine p line).2 = Returned ret ok (Some e) → is_DecodeError e = true.
Proof.
  destruct (decide (sl_Type line = LineTypeMessage)) as [Hty|Hty];
    [|by rewrite processRawLine_not_message].
  destruct (sl_Channel line) as [c|] eqn:Hch;
    [|by rewrite processRawLine_nil_channel].
  destruct (definition_of p (sl_Exchange line) c) as [def|] eqn:Hdef.
  - rewrite (processRawLine_message p line c def) by done.
    destruct (json_Unmarshal_obj (sl_Message line)) as [msgObj [cause|]].
    { by intros [= _ _ <-]. }
    destruct (convert (range def) msgObj) as [fields|e'|reason] eqn:Hc; try done.
    intros [= _ _ <-]. by eapply convert_error_is_DecodeError.
  - rewrite (processRawLine_definition p line c) by done. cbn zeta.
    destruct (json_Unmarshal_def (sl_Message line)) as [def [cause|]]; [|done].
    by intros [= _ _ <-].
Qed.

(** C10: a call changes the table only at the exchange of its line; a
    message line leaves the definitions of the other channels of its exchange
    as they are; a call that returns an error (always a decode error) leaves
    every stored definition as it is. *)
Theorem processRawLine_frame p line :
  (∀ exchange, exchange ≠ sl_Exchange line →
     defs (processRawLine p line).1 !! exchange = defs p !! exchange) ∧
  (sl_Type line = LineTypeMessage →
   ∀ channel, sl_Channel line ≠ Some channel →
     definition_of (processRawLine p line).1 (sl_Exchange line) channel
       = definition_of p (sl_Exchange line) channel) ∧
  (∀ ret ok e, (processRawLine p line).2 = Returned ret ok (Some e) →
     is_DecodeError e = true ∧
     ∀ exchange channel,
       definition_of (processRawLine p line).1 exchange channel
         = definition_of p exchange channel).
Proof.
  split; [|split].
  - intros exchange Hne. by apply processRawLine_other_exchange.
  - intros Hty channel Hch. rewrite definition_of_processRawLine.
    unfold definition_after. rewrite Hty, decide_True by done.
    by rewrite decide_False.
  - intros ret ok e Herr. split; [by eapply processRawLine_error_is_DecodeError|].
    intros exchange channel. rewrite definition_of_processRawLine.
    unfold definition_after.
    destruct (decide (exchange = sl_Exchange line)) as [->|]; [|done].
    destruct (decide (sl_Type line = LineTypeMessage)) as [Hty|Hty];
      [|by rewrite processRawLine_not_message in Herr].
    rewrite Hty.
    destruct (decide (sl_Channel line = Some channel)) as [Hch|]; [|done].
    destruct (definition_of p (sl_Exchange line) channel) as [def|] eqn:Hdef; [done|].
    rewrite (processRawLine_definition p line channel) in Herr by done. cbn zeta in Herr.
    by destruct (json_Unmarshal_def (sl_Message line)) as [def [cause|]].
Qed.

Lemma non_message_creates_no_entry p line :
  sl_Type line ≠ LineTypeMessage →
  defs p !! sl_Exchange line = None →
  defs (processRawLine p line).1 !! sl_Exchange line = None.
Proof.
  intros Hty Hnone. rewrite processRawLine_not_message by done. cbn.
  case_bool_decide; cbn; [by rewrite lookup_delete_eq|done].
Qed.

(** C9, as the code has it: a line that is not a message line never creates
    the entry of its exchange; a message line (with its channel) leaves an
    entry for its exchange, creating an empty one when there was none; and
    a definition appears for a pair only by a message line of that pair
    that finds none, decodes as a definition and is not emitted. *)
Theorem schema_table_entries_come_from_messages p line :
  (sl_Type line ≠ LineTypeMessage →
   defs p !! sl_Exchange line = None →
   defs (processRawLine p line).1 !! sl_Exchange line = None) ∧
  (sl_Type line = LineTypeMessage → is_Some (sl_Channel line) →
   is_Some (defs (processRawLine p line).1 !! sl_Exchange line)) ∧
  (∀ exchange channel def,
     definition_of p exchange channel = None →
     definition_of (processRawLine p line).1 exchange channel = Some def →
     sl_Type line = LineTypeMessage ∧ sl_Exchange line = exchange ∧
     sl_Channel line = Some channel ∧
     json_Unmarshal_def (sl_Message line) = (def, None) ∧
     (processRawLine p line).2 = Returned zeroStructLine false None).
Proof.
  split; [|split].
  - by apply non_message_creates_no_entry.
  - intros Hty [c Hch].
    destruct (definition_of p (sl_Exchange line) c) as [def|] eqn:Hdef.
    + rewrite (processRawLine_message_table p line c def) by done.
      unfold definition_of in Hdef.
      destruct (defs p !! sl_Exchange line); [by eauto|done].
    + rewrite (processRawLine_definition p line c) by done. cbn zeta.
      destruct (json_Unmarshal_def (sl_Message line)) as [def [cause|]]; cbn;
        rewrite lookup_insert_eq; by eauto.
  - intros exchange channel def Hnone Hsome.
    rewrite definition_of_processRawLine in Hsome. unfold definition_after in Hsome.
    destruct (decide (exchange = sl_Exchange line)) as [->|]; [|congruence].
    destruct (sl_Type line) eqn:Hty; [done| |congruence].
    destruct (decide (sl_Channel line = Some channel)) as [Hch|]; [|congruence].
    rewrite Hnone in Hsome.
    rewrite (processRawLine_definition p line channel) by done. cbn zeta.
    destruct (json_Unmarshal_def (sl_Message line)) as [def' [cause|]]; [done|].
    by simplify_eq.
Qed.

Lemma run_cons p line lines :
  run p (line :: lines) = run (processRawLine p line).1 lines.
Proof. done. Qed.

(** Lines that are not message lines of a pair do not give it a
    definition. *)
Lemma run_keeps_definition_absent exchange channel lines : ∀ p,
  Forall (λ l, ¬ (sl_Type l = LineTypeMessage ∧ sl_Exchange l = exchange ∧
                  sl_Channel l = Some channel)) lines →
  definition_of p exchange channel = None →
  definition_of (run p lines) exchange channel = None.
Proof.
  induction lines as [|l lines IH]; intros p Hall Hnone; [done|].
  apply Forall_cons in Hall as [Hl Hall]. rewrite run_cons. apply IH; [done|].
  rewrite definition_of_processRawLine. unfold definition_after.
  destruct (decide (exchange = sl_Exchange l)) as [->|Hne]; [|done].
  destruct (sl_Type l) eqn:Hty; [done| |done].
  destruct (decide (sl_Channel l = Some channel)) as [Hch|]; [|done].
  by destruct Hl.
Qed.

(** C2: a Start line of an exchange deletes the whole entry of the exchange,
    so that no channel of it has a definition; for any channel, the next
    message line of the exchange and that channel (after lines that are not
    message lines of the pair) is then taken as a definition line: it is
    stored as the definition of its pair and is not emitted, whatever the
    table held before the Start line. *)
Theorem start_resets_schema p start mid line channel :
  sl_Type start = LineTypeStart →
  Forall (λ l, ¬ (sl_Type l = LineTypeMessage ∧ sl_Exchange l = sl_Exchange start ∧
                  sl_Channel l = Some channel)) mid →
  sl_Type line = LineTypeMessage →
  sl_Exchange line = sl_Exchange start →
  sl_Channel line = Some channel →
  defs (processRawLine p start).1 = delete (sl_Exchange start) (defs p) ∧
  (∀ c, definition_of (processRawLine p start).1 (sl_Exchange start) c = None) ∧
  ∃ p' err,
    processRawLine (run (processRawLine p start).1 mid) line
      = (p', Returned zeroStructLine false err) ∧
    match json_Unmarshal_def (sl_Message line) with
    | (def, None) =>
        err = None ∧ definition_of p' (sl_Exchange start) channel = Some def
    | (_, Some cause) => err = Some (fmt_Errorf "def update unmarshal" cause)
    end.
Proof.
  intros Hstart Hmid Hty Hex Hch.
  assert (Hgone : defs (processRawLine p start).1 !! sl_Exchange start = None).
  { rewrite processRawLine_start_deletes by done. apply lookup_delete_eq. }
  split; [by apply processRawLine_start_deletes|].
  split; [by intros c; unfold definition_of; rewrite Hgone|].
  assert (Hnone : definition_of (run (processRawLine p start).1 mid)
                    (sl_Exchange start) channel = None).
  { apply run_keeps_definition_absent; [done|].
    unfold definition_of. by rewrite Hgone. }
  rewrite (processRawLine_definition _ line channel); [|done|done|].
  2: { by rewrite Hex. }
  cbn zeta. rewrite <- Hex.
  destruct (json_Unmarshal_def (sl_Message line)) as [def [cause|]];
    eexists _, _; (split; [reflexivity|]); [done|].
  split; [done|]. unfold definition_of. cbn.
  rewrite lookup_insert_eq. cbn. by rewrite lookup_insert_eq.
Qed.

(** Within the [int64] range [UnixNano] is the number of nanoseconds since
    the epoch, so that the order of two such instants is the order of their
    [UnixNano]. *)
Lemma UnixNano_exact t :
  minInt64 ≤ unixSec t * 10 ^ 9 + nsec t ≤ maxInt64 →
  UnixNano t = unixSec t * 10 ^ 9 + nsec t.
Proof.
  unfold UnixNano, wrap64, minInt64, maxInt64. intros Hrange.
  rewrite Z.mod_small; lia.
Qed.

(** When the loop over a definition ends normally, its result is the
    coerced mapping, in whatever order the entries were visited. *)
Lemma convert_range_Converted (def : gmap string string) msgObj fields :
  convert (range def) msgObj = Converted fields → fields = coerce def msgObj.
Proof.
  intros Hc. pose proof (convert_inv (range def) msgObj (range_NoDup def)) as Hinv.
  rewrite Hc in Hinv.
  rewrite convert_Converted in Hc by (apply range_NoDup || done).
  rewrite list_to_map_range in Hc. congruence.
Qed.

(** The loop over a definition ends normally exactly when every named field
    converts, and then with the coerced mapping: neither depends on the order
    in which the entries are visited. *)
Lemma convert_range_iff (def : gmap string string) msgObj fields :
  convert (range def) msgObj = Converted fields ↔
  convertible def msgObj ∧ fields = coerce def msgObj.
Proof.
  split.
  - intros Hc. split; [|by eapply convert_range_Converted].
    pose proof (convert_inv (range def) msgObj (range_NoDup def)) as Hinv.
    rewrite Hc in Hinv. intros name typ val Hn Hval.
    apply (Hinv name typ val); [by apply elem_of_range|done].
  - intros [Hok ->]. rewrite convert_Converted.
    + by rewrite list_to_map_range.
    + apply range_NoDup.
    + intros name typ val Hin%elem_of_range Hval. by eapply Hok.
Qed.

(** C8: under an existing definition, a field the definition does not name
    and a field whose value is null are in the emitted line as they were
    decoded; an error of the call never comes from such a field, only from a
    non-null string under "timestamp" or "duration" that [ParseInt]
    rejects; and a message all of whose named fields are null or absent is
    emitted as decoded. *)
Theorem processRawLine_passes_null_and_unnamed p line channel def msgObj :
  sl_Type line = LineTypeMessage →
  sl_Channel line = Some channel →
  definition_of p (sl_Exchange line) channel = Some def →
  json_Unmarshal_obj (sl_Message line) = (msgObj, None) →
  (∀ ret ok err, (processRawLine p line).2 = Returned ret ok err → ok = true →
     ∃ fields, Message ret = MsgFields fields ∧
       ∀ name, def !! name = None ∨ msgObj !! name = Some VNil →
         fields !! name = msgObj !! name) ∧
  (∀ ret ok e, (processRawLine p line).2 = Returned ret ok (Some e) →
     ∃ name typ s n cause,
       def !! name = Some typ ∧ (typ = "timestamp" ∨ typ = "duration") ∧
       msgObj !! name = Some (VString s) ∧ ParseInt s = (n, Some cause) ∧
       e = fmt_Errorf "type conversion" cause) ∧
  ((∀ name typ, def !! name = Some typ →
      msgObj !! name = None ∨ msgObj !! name = Some VNil) →
   processRawLine p line =
     (p, Returned {| Exchange := sl_Exchange line; Type_ := LineTypeMessage;
                     Timestamp := sl_Timestamp line; Channel := Some channel;
                     Message := MsgFields msgObj; Definition_ := Some def |}
           true None)).
Proof.
  intros Hty Hch Hdef Hmsg.
  rewrite (processRawLine_message p line channel def) by done. rewrite Hmsg.
  pose proof (convert_inv (range def) msgObj (range_NoDup def)) as Hinv.
  split; [|split].
  - intros ret ok err Hret ->.
    destruct (convert (range def) msgObj) as [fields|e|reason] eqn:Hc; try done.
    cbn in Hret. injection Hret as Hret _. subst ret. exists fields. split; [done|].
    apply convert_range_Converted in Hc as ->.
    intros name Hname. rewrite lookup_coerce.
    destruct Hname as [-> | ->]; [by destruct (msgObj !! name)|].
    cbn. by destruct (def !! name).
  - intros ret ok e Hret.
    destruct (convert (range def) msgObj) as [fields|e'|reason] eqn:Hc; try done.
    cbn in Hret. injection Hret as _ _ Hret. subst e'.
    destruct Hinv as (name & typ & val & Hin%elem_of_range & Hval & Hv).
    apply convert_value_error in Hv as (s & n & cause & -> & Hp & Htyp & ->).
    by exists name, typ, s, n, cause.
  - intros Hnull. rewrite convert_Converted; [|apply range_NoDup|].
    + rewrite list_to_map_range. do 4 f_equal.
      apply map_eq. intros name. rewrite lookup_coerce.
      destruct (msgObj !! name) as [val|] eqn:Hval; [cbn|done].
      destruct (def !! name) as [typ|] eqn:Hn; [|done].
      destruct (Hnull name typ Hn) as [?|?]; simplify_eq. done.
    + intros name typ val Hin%elem_of_range Hval.
      destruct (Hnull name typ Hin) as [?|?]; simplify_eq. by eexists.
Qed.


(** A non-null value that is not a string, under
    "timestamp" or "duration", or not a float64, under "int", makes the call
    panic (the type assertion is unchecked), when the other named fields
    have the shapes their tags expect. *)
Lemma processRawLine_panics_on_mistyped_field p line channel def msgObj name typ val :
  sl_Type line = LineTypeMessage →
  sl_Channel line = Some channel →
  definition_of p (sl_Exchange line) channel = Some def →
  json_Unmarshal_obj (sl_Message line) = (msgObj, None) →
  def !! name = Some typ → msgObj !! name = Some val → is_nil val = false →
  ((typ = "timestamp" ∨ typ = "duration") ∧ (∀ s, val ≠ VString s)) ∨
  (typ = "int" ∧ ∀ f, val ≠ VFloat64 f) →
  (∀ name' typ' val', name' ≠ name → def !! name' = Some typ' →
     msgObj !! name' = Some val' → well_shaped typ' val' = true) →
  ∃ reason, processRawLine p line = (p, Panicked reason).
Proof.
  intros Hty Hch Hdef Hmsg Hn Hval Hnil Hbad Hothers.
  rewrite (processRawLine_message p line channel def) by done. rewrite Hmsg.
  assert (Hpanic : ∃ reason, convert_value typ val = FieldPanic reason).
  { unfold convert_value. rewrite Hnil.
    destruct Hbad as [[Htyp Hs]|[-> Hf]].
    - assert (bool_decide (typ = "timestamp") || bool_decide (typ = "duration") = true) as ->
        by (by destruct Htyp as [-> | ->]).
      destruct val; try by eexists. by destruct (Hs s).
    - cbn. destruct val; try by eexists. by destruct (Hf f). }
  destruct Hpanic as [reason Hpanic].
  pose proof (convert_inv (range def) msgObj (range_NoDup def)) as Hinv.
  destruct (convert (range def) msgObj) as [fields|e|reason'].
  - destruct (Hinv name typ val) as [v Hv]; [by apply elem_of_range|done|].
    congruence.
  - destruct Hinv as (name' & typ' & val' & Hin%elem_of_range & Hval' & Hv).
    destruct (decide (name' = name)) as [->|Hne]; [simplify_eq; congruence|].
    destruct (well_shaped_convert_value typ' val') as [v Hv']; [by eauto|congruence].
  - by eexists.
Qed.

(** ** The claims about the request and the two consumption paths *)

(** On the [UnixNano] values, which are what the code compares: the
    construction fails, with no request, when the one of the start is not
    below the one of the end (with the "'Start' >= 'End'" error when the
    filter was copied); it succeeds when it is below and the filter is
    copied; a request that was constructed has [start < end]. *)
Theorem setupReplayRequest_validates cli param :
  (UnixNano (param_End param) ≤ UnixNano (param_Start param) →
   ∃ e, setupReplayRequest cli param = (None, Some e) ∧
     ((copyFilter (param_Filter param)).2 = None →
      e = errors_New "'Start' >= 'End'")) ∧
  (UnixNano (param_Start param) < UnixNano (param_End param) →
   ∀ filter, copyFilter (param_Filter param) = (filter, None) →
     setupReplayRequest cli param =
       (Some {| req_cli := cli; req_filter := filter;
                req_start := UnixNano (param_Start param);
                req_end := UnixNano (param_End param) |}, None)) ∧
  (∀ req err, setupReplayRequest cli param = (Some req, err) →
     err = None ∧ req_start req < req_end req ∧
     req_start req = UnixNano (param_Start param) ∧
     req_end req = UnixNano (param_End param) ∧
     copyFilter (param_Filter param) = (req_filter req, None)).
Proof.
  unfold setupReplayRequest.
  destruct (copyFilter (param_Filter param)) as [filter [e|]]; cbn.
  - split; [intros _; by eexists|]. split; [by intros _ ? [=]|]. by intros ? ? [=].
  - destruct (Z.leb_spec (UnixNano (param_End param)) (UnixNano (param_Start param))).
    + split; [intros _; by eexists|]. split; [lia|]. by intros ? ? [=].
    + split; [lia|]. split; [by intros _ ? [= <-]|].
      intros req err [= <- <-]. cbn. repeat split; lia || done.
Qed.

Lemma outcomes_cons p line lines :
  outcomes p (line :: lines)
    = (processRawLine p line).2 :: outcomes (processRawLine p line).1 lines.
Proof. cbn. by destruct (processRawLine p line). Qed.

Lemma download_loop_cons p line slice result :
  download_loop p (line :: slice) result =
    match (processRawLine p line).2 with
    | Returned processed true _ =>
        download_loop (processRawLine p line).1 slice (result ++ [processed])%list
    | Returned _ false None => download_loop (processRawLine p line).1 slice result
    | Returned _ false (Some e) => DownloadReturned None (Some e)
    | Panicked reason => DownloadPanicked reason
    end.
Proof.
  cbn. destruct (processRawLine p line) as [p' [ret [|] [e|]|reason]]; done.
Qed.

(** The loop of the download path when no call fails: the typed lines of the
    calls that emitted, in order, after what was collected before. *)
Lemma download_loop_no_failure slice : ∀ p result,
  Forall no_failure (outcomes p slice) →
  download_loop p slice result
    = DownloadReturned (Some (result ++ emitted (outcomes p slice))%list) None.
Proof.
  induction slice as [|line slice IH]; intros p result Hall.
  - cbn. by rewrite app_nil_r.
  - rewrite outcomes_cons in *. rewrite download_loop_cons.
    apply Forall_cons in Hall as [Hline Hall].
    destruct (processRawLine p line).2 as [ret [|] [e|]|reason]; try done.
    + rewrite IH by done. cbn. by rewrite <- app_assoc.
    + by rewrite IH.
Qed.

(** The loop of the download path when a call returns an error after calls
    that did not fail: the error, and no lines. *)
Lemma download_loop_failure pre : ∀ p result line post ret ok e,
  Forall no_failure (outcomes p pre) →
  (processRawLine (run p pre) line).2 = Returned ret ok (Some e) →
  download_loop p (pre ++ line :: post)%list result = DownloadReturned None (Some e).
Proof.
  induction pre as [|l pre IH]; intros p result line post ret ok e Hall Herr.
  - cbn [app]. rewrite download_loop_cons. cbn in Herr. rewrite Herr.
    destruct ok; [|done]. by apply processRawLine_error_not_ok in Herr.
  - rewrite outcomes_cons in Hall. apply Forall_cons in Hall as [Hl Hall].
    rewrite run_cons in Herr. cbn [app]. rewrite download_loop_cons.
    destruct (processRawLine p l).2 as [ret' [|] [e'|]|reason]; try done;
      by eapply IH.
Qed.

(** Whatever the loop of the download path returns, it is an error and no
    lines, or the typed lines of calls none of which failed. *)
Lemma download_loop_inv slice : ∀ p result lines err,
  download_loop p slice result = DownloadReturned lines err →
  (lines = None ∧ is_Some err) ∨
  (lines = Some (result ++ emitted (outcomes p slice))%list ∧ err = None ∧
   Forall no_failure (outcomes p slice)).
Proof.
  induction slice as [|line slice IH]; intros p result lines err.
  - cbn. intros [= <- <-]. right. by rewrite app_nil_r.
  - rewrite download_loop_cons, outcomes_cons.
    destruct (processRawLine p line).2 as [ret [|] [e|]|reason] eqn:Hline.
    + by apply processRawLine_error_not_ok in Hline.
    + intros [?|(-> & -> & Hall)]%IH; [by left|right]. cbn.
      rewrite <- app_assoc. split; [done|split; [done|]]. by apply Forall_cons.
    + intros [= <- <-]. left. by eauto.
    + intros [?|(-> & -> & Hall)]%IH; [by left|right]. cbn.
      split; [done|split; [done|]]. by apply Forall_cons.
    + done.
Qed.

(** C6: in the download path the lines the processor does not emit are not
    in the result, which holds exactly the typed lines of the calls that
    emitted, in order; and an error of the processor at any line makes the
    whole download return that error and no lines. *)
Theorem download_drops_and_aborts r ctx concurrency slice :
  RawRequest_DownloadWithContext (rawRequest_of r) ctx concurrency = (slice, None) →
  (Forall no_failure (outcomes newRawLineProcessor slice) →
   DownloadWithContext r ctx concurrency
     = DownloadReturned (Some (emitted (outcomes newRawLineProcessor slice))) None) ∧
  (∀ pre line post ret ok e,
     slice = (pre ++ line :: post)%list →
     Forall no_failure (outcomes newRawLineProcessor pre) →
     (processRawLine (run newRawLineProcessor pre) line).2 = Returned ret ok (Some e) →
     is_DecodeError e = true ∧
     DownloadWithContext r ctx concurrency = DownloadReturned None (Some e)) ∧
  (∀ lines err, DownloadWithContext r ctx concurrency = DownloadReturned lines err →
     (lines = None ∧ is_Some err) ∨
     (lines = Some (emitted (outcomes newRawLineProcessor slice)) ∧ err = None ∧
      Forall no_failure (outcomes newRawLineProcessor slice))).
Proof.
  intros Hraw. unfold DownloadWithContext. fold (rawRequest_of r). rewrite Hraw.
  split; [|split].
  - intros Hall. by rewrite download_loop_no_failure.
  - intros pre line post ret ok e -> Hall Herr.
    split; [by eapply processRawLine_error_is_DecodeError|].
    by eapply (download_loop_failure pre newRawLineProcessor [] line post ret ok e).
  - intros lines err Hret. by apply download_loop_inv in Hret.
Qed.

(** One turn of the loop of [Next] on an iterator that has a pending line. *)
Lemma Next_loop_cons fuel line slice p :
  Next_loop (S fuel) (iterator_over (line :: slice) p) =
    match (processRawLine p line).2 with
    | Returned processed true _ =>
        Some (iterator_over slice (processRawLine p line).1,
              NextReturned (Some processed) true None)
    | Returned _ false None =>
        Next_loop fuel (iterator_over slice (processRawLine p line).1)
    | Returned _ false (Some e) =>
        Some (iterator_over slice (processRawLine p line).1,
              NextReturned None false (Some e))
    | Panicked reason =>
        Some (iterator_over slice (processRawLine p line).1, NextPanicked reason)
    end.
Proof.
  cbn. destruct (processRawLine p line) as [p' [ret [|] [e|]|reason]]; done.
Qed.

(** [Next] returns: the bound in its definition is never reached. More fuel
    changes nothing. *)
Lemma Next_loop_enough slice : ∀ p fuel,
  (length slice < fuel)%nat →
  Next_loop fuel (iterator_over slice p) = Next (iterator_over slice p) ∧
  is_Some (Next (iterator_over slice p)).
Proof.
  unfold Next. cbn [rawItr pending iterator_over from_option].
  induction slice as [|line slice IH]; intros p fuel Hfuel.
  - destruct fuel as [|fuel]; [lia|]. cbn. by eauto.
  - destruct fuel as [|fuel]; [cbn in Hfuel; lia|]. cbn [length] in *.
    rewrite !Next_loop_cons.
    destruct (processRawLine p line).2 as [ret [|] [e|]|reason]; try by eauto.
    apply IH. lia.
Qed.

Lemma Next_cons line slice p :
  Next (iterator_over (line :: slice) p) =
    match (processRawLine p line).2 with
    | Returned processed true _ =>
        Some (iterator_over slice (processRawLine p line).1,
              NextReturned (Some processed) true None)
    | Returned _ false None => Next (iterator_over slice (processRawLine p line).1)
    | Returned _ false (Some e) =>
        Some (iterator_over slice (processRawLine p line).1,
              NextReturned None false (Some e))
    | Panicked reason =>
        Some (iterator_over slice (processRawLine p line).1, NextPanicked reason)
    end.
Proof.
  unfold Next at 1. cbn [rawItr pending iterator_over length from_option].
  apply Next_loop_cons.
Qed.

Lemma drain_S fuel i :
  drain (S fuel) i =
    match Next i with
    | None => None
    | Some (i, NextReturned (Some line) true _) =>
        match drain fuel i with
        | Some (lines, e) => Some (line :: lines, e)
        | None => None
        end
    | Some (_, NextReturned _ _ (Some e)) => Some ([], Errored e)
    | Some (_, NextReturned _ _ None) => Some ([], Exhausted)
    | Some (_, NextPanicked reason) => Some ([], StreamPanicked reason)
    end.
Proof. done. Qed.

(** Draining the stream over a run of raw lines ends, and the download loop
    over the same lines returns what was drained. *)
Lemma drain_download_loop slice : ∀ p,
  ∃ lines e,
    (∀ fuel, (length slice < fuel)%nat →
       drain fuel (iterator_over slice p) = Some (lines, e)) ∧
    (∀ result,
       download_loop p slice result = download_of_drained (result ++ lines)%list e).
Proof.
  induction slice as [|line slice IH]; intros p.
  - exists [], Exhausted. split.
    + intros [|fuel] Hfuel; [cbn in Hfuel; lia|done].
    + intros result. cbn. by rewrite app_nil_r.
  - destruct (IH (processRawLine p line).1) as (lines & e' & Hdrain & Hloop).
    destruct (processRawLine p line).2 as [ret [|] [e|]|reason] eqn:Hline.
    + exists (ret :: lines), e'. split.
      * intros [|fuel] Hfuel; cbn [length] in Hfuel; [lia|].
        rewrite drain_S, Next_cons, Hline, Hdrain by lia. done.
      * intros result. rewrite download_loop_cons, Hline, Hloop.
        by rewrite <- app_assoc.
    + exists (ret :: lines), e'. split.
      * intros [|fuel] Hfuel; cbn [length] in Hfuel; [lia|].
        rewrite drain_S, Next_cons, Hline, Hdrain by lia. done.
      * intros result. rewrite download_loop_cons, Hline, Hloop.
        by rewrite <- app_assoc.
    + exists [], (Errored e). split.
      * intros [|fuel] Hfuel; cbn [length] in Hfuel; [lia|].
        by rewrite drain_S, Next_cons, Hline.
      * intros result. by rewrite download_loop_cons, Hline.
    + exists lines, e'. split.
      * intros [|fuel] Hfuel; cbn [length] in Hfuel; [lia|].
        rewrite drain_S, Next_cons, Hline, <- drain_S. apply Hdrain. lia.
      * intros result. by rewrite download_loop_cons, Hline, Hloop.
    + exists [], (StreamPanicked reason). split.
      * intros [|fuel] Hfuel; cbn [length] in Hfuel; [lia|].
        by rewrite drain_S, Next_cons, Hline.
      * intros result. by rewrite download_loop_cons, Hline.
Qed.

(** ** More on [processRawLine] *)

(** What an emitted line is, by the branch that emitted it. *)
Lemma processRawLine_emitted_inv p line ret err :
  (processRawLine p line).2 = Returned ret true err →
  err = None ∧ typed_header ret = raw_header line ∧
  ((sl_Type line ≠ LineTypeMessage ∧ ret = verbatim line) ∨
   (sl_Type line = LineTypeMessage ∧
    ∃ channel def msgObj,
      sl_Channel line = Some channel ∧
      definition_of p (sl_Exchange line) channel = Some def ∧
      json_Unmarshal_obj (sl_Message line) = (msgObj, None) ∧
      Message ret = MsgFields (coerce def msgObj) ∧
      Definition_ ret = Some def)).
Proof.
  destruct (decide (sl_Type line = LineTypeMessage)) as [Hty|Hty].
  - destruct (sl_Channel line) as [c|] eqn:Hch;
      [|by rewrite processRawLine_nil_channel].
    destruct (definition_of p (sl_Exchange line) c) as [def|] eqn:Hdef.
    + rewrite (processRawLine_message p line c def) by done.
      destruct (json_Unmarshal_obj (sl_Message line)) as [msgObj [e|]] eqn:Hmsg;
        [done|].
      destruct (convert (range def) msgObj) as [fields|e|reason] eqn:Hc; try done.
      apply convert_range_Converted in Hc as ->.
      intros [= <- <-]. split; [done|]. split.
      { unfold typed_header, raw_header. cbn. by rewrite Hty, Hch. }
      right. split; [done|]. by exists c, def, msgObj.
    + rewrite (processRawLine_definition p line c) by done. cbn zeta.
      by destruct (json_Unmarshal_def (sl_Message line)) as [def [e|]].
  - rewrite processRawLine_not_message by done. intros [= <- <-].
    split; [done|]. split; [done|]. by left.
Qed.

(** X1: A line that is emitted carries the exchange, type, timestamp and channel
    of its raw line, and comes with no error; a line that is not a message
    line is emitted with its payload as it is and no definition, a message
    line with the coerced fields of its payload and the definition that the
    table holds for its pair. *)
Theorem processRawLine_emitted_line p line ret err :
  (processRawLine p line).2 = Returned ret true err →
  err = None ∧ typed_header ret = raw_header line ∧
  ((sl_Type line ≠ LineTypeMessage ∧ Message ret = MsgRaw (sl_Message line) ∧
    Definition_ ret = None) ∨
   (sl_Type line = LineTypeMessage ∧
    ∃ channel def msgObj,
      sl_Channel line = Some channel ∧
      definition_of p (sl_Exchange line) channel = Some def ∧
      json_Unmarshal_obj (sl_Message line) = (msgObj, None) ∧
      Message ret = MsgFields (coerce def msgObj) ∧
      Definition_ ret = Some def)).
Proof.
  intros (-> & Hhead & [[Hty ->]|Hmsg])%processRawLine_emitted_inv.
  - split; [done|]. split; [done|]. by left.
  - split; [done|]. split; [done|]. by right.
Qed.

(** What coercion does to one field: it keeps the value, or puts an [int64]
    in place of a non-null value under one of the three tags. *)
Lemma lookup_coerce_cases def (msgObj : gmap string value) name val :
  msgObj !! name = Some val →
  coerce def msgObj !! name = Some val ∨
  ∃ n typ, coerce def msgObj !! name = Some (VInt64 n) ∧ is_nil val = false ∧
    def !! name = Some typ ∧ pass_through_tag typ = false.
Proof.
  intros Hval. rewrite lookup_coerce, Hval. cbn.
  destruct (def !! name) as [typ|] eqn:Hn; [|by left].
  unfold convert_value.
  destruct (is_nil val) eqn:Hnil; [by left|].
  destruct (bool_decide (typ = "timestamp") || bool_decide (typ = "duration")) eqn:Hts.
  { destruct val; try by left.
    destruct (ParseInt s) as [n [e|]]; [by left|]. right. exists n, typ.
    unfold pass_through_tag. by rewrite Hts. }
  destruct (bool_decide (typ = "int")) eqn:Hint; [|by left].
  destruct val; try by left. right. eexists _, typ.
  unfold pass_through_tag. by rewrite Hts, Hint.
Qed.

(** X2: Coercion neither adds nor removes a field: the emitted mapping of a
    message line has the field names of the decoded payload, and each field
    has its decoded value or an [int64] put in place of a non-null value
    that the definition tags "timestamp", "duration" or "int". *)
Theorem processRawLine_keeps_field_names p line ret err fields :
  (processRawLine p line).2 = Returned ret true err →
  Message ret = MsgFields fields →
  ∃ def msgObj,
    Definition_ ret = Some def ∧
    json_Unmarshal_obj (sl_Message line) = (msgObj, None) ∧
    dom fields = dom msgObj ∧
    ∀ name val, msgObj !! name = Some val →
      fields !! name = Some val ∨
      ∃ n typ, fields !! name = Some (VInt64 n) ∧ is_nil val = false ∧
        def !! name = Some typ ∧ pass_through_tag typ = false.
Proof.
  intros (_ & _ & [[_ ->]|(_ & c & def & msgObj & _ & _ & Hobj & Hmsg & Hd)])
    %processRawLine_emitted_inv Hfields; [done|].
  rewrite Hmsg in Hfields. injection Hfields as <-.
  exists def, msgObj. split; [done|]. split; [done|]. split.
  - apply set_eq. intros name. rewrite !elem_of_dom, lookup_coerce.
    by rewrite fmap_is_Some.
  - intros name val. apply lookup_coerce_cases.
Qed.

(** X3: A definition that is stored stays as it is until a Start line of its
    exchange: no other line, and no message line of its own pair whatever
    its payload, replaces or removes it. *)
Theorem stored_definition_survives p lines exchange channel def :
  definition_of p exchange channel = Some def →
  Forall (λ l, ¬ (sl_Type l = LineTypeStart ∧ sl_Exchange l = exchange)) lines →
  definition_of (run p lines) exchange channel = Some def.
Proof.
  revert p. induction lines as [|l lines IH]; intros p Hdef Hall; [done|].
  apply Forall_cons in Hall as [Hl Hall]. rewrite run_cons. apply IH; [|done].
  rewrite definition_of_processRawLine. unfold definition_after.
  destruct (decide (exchange = sl_Exchange l)) as [->|Hne]; [|done].
  destruct (sl_Type l) eqn:Hty; [by destruct Hl| |done].
  destruct (decide (sl_Channel l = Some channel)); [|done]. by rewrite Hdef.
Qed.

(** The outcome of a call depends on the table only through the definition
    of the pair of its line. *)
Lemma processRawLine_outcome_by_definition p1 p2 line :
  (∀ channel, sl_Channel line = Some channel →
     definition_of p1 (sl_Exchange line) channel
       = definition_of p2 (sl_Exchange line) channel) →
  (processRawLine p1 line).2 = (processRawLine p2 line).2.
Proof.
  intros Hsame.
  destruct (decide (sl_Type line = LineTypeMessage)) as [Hty|Hty];
    [|by rewrite !processRawLine_not_message].
  destruct (sl_Channel line) as [c|] eqn:Hch;
    [|by rewrite !processRawLine_nil_channel].
  specialize (Hsame c eq_refl).
  destruct (definition_of p1 (sl_Exchange line) c) as [def|] eqn:Hdef.
  - rewrite (processRawLine_message p1 line c def),
      (processRawLine_message p2 line c def) by done.
    destruct (json_Unmarshal_obj (sl_Message line)) as [msgObj [e|]]; [done|].
    by destruct (convert (range def) msgObj).
  - rewrite (processRawLine_definition p1 line c),
      (processRawLine_definition p2 line c) by done. cbn zeta.
    by destruct (json_Unmarshal_def (sl_Message line)) as [def [e|]].
Qed.

(** X4: Two tables that hold the same definition (or none) for the pair of a
    line give the same outcome on it, whatever else they hold: the other
    exchanges and channels have no part in how a line is processed. *)
Theorem outcome_depends_on_pair_definition p1 p2 line :
  (∀ channel, sl_Channel line = Some channel →
     definition_of p1 (sl_Exchange line) channel
       = definition_of p2 (sl_Exchange line) channel) →
  (processRawLine p1 line).2 = (processRawLine p2 line).2.
Proof. apply processRawLine_outcome_by_definition. Qed.

(** ** More on the download path *)

Lemma outcomes_app p pre post :
  outcomes p (pre ++ post) = (outcomes p pre ++ outcomes (run p pre) post)%list.
Proof.
  revert p. induction pre as [|l pre IH]; intros p; [done|].
  cbn [app]. rewrite !outcomes_cons, run_cons, IH. done.
Qed.

Lemma emitted_cons o os :
  emitted (o :: os) =
    match o with
    | Returned ret true _ => ret :: emitted os
    | _ => emitted os
    end.
Proof. by destruct o as [ret [|] err|reason]. Qed.

(** The calls on the lines of one exchange, alone, go as they go among the
    lines of the other exchanges. *)
Lemma outcomes_of_exchange exchange slice : ∀ p p',
  (∀ c, definition_of p exchange c = definition_of p' exchange c) →
  Forall no_failure (outcomes p slice) →
  Forall no_failure (outcomes p' (filter (λ l, sl_Exchange l = exchange) slice)) ∧
  emitted (outcomes p' (filter (λ l, sl_Exchange l = exchange) slice))
    = filter (λ ret, Exchange ret = exchange) (emitted (outcomes p slice)).
Proof.
  induction slice as [|line slice IH]; intros p p' Hsame Hall; [done|].
  rewrite outcomes_cons in Hall. apply Forall_cons in Hall as [Hline Hall].
  rewrite outcomes_cons, emitted_cons.
  destruct (decide (sl_Exchange line = exchange)) as [Hex|Hex].
  - rewrite filter_cons_True by done. rewrite outcomes_cons, emitted_cons.
    assert (Hout : (processRawLine p' line).2 = (processRawLine p line).2).
    { apply processRawLine_outcome_by_definition. intros c _. by rewrite Hex. }
    rewrite Hout.
    destruct (IH (processRawLine p line).1 (processRawLine p' line).1)
      as [Hall' Hem]; [|done|].
    { intros c. rewrite !definition_of_processRawLine. unfold definition_after.
      by rewrite (Hsame c). }
    split; [by apply Forall_cons|].
    destruct (processRawLine p line).2 as [ret [|] err|reason] eqn:Ho; try done.
    apply processRawLine_emitted_inv in Ho as (_ & Hhead & _).
    rewrite filter_cons_True; [by rewrite Hem|].
    unfold typed_header, raw_header in Hhead. by simplify_eq.
  - rewrite filter_cons_False by done.
    destruct (IH (processRawLine p line).1 p') as [Hall' Hem]; [|done|].
    { intros c. rewrite definition_of_other_exchange by congruence. apply Hsame. }
    split; [done|].
    destruct (processRawLine p line).2 as [ret [|] err|reason] eqn:Ho; try done.
    apply processRawLine_emitted_inv in Ho as (_ & Hhead & _).
    rewrite filter_cons_False; [done|].
    unfold typed_header, raw_header in Hhead. intros ?. by simplify_eq.
Qed.

(** X5: Exchanges are processed independently: when the lines of a download are
    processed without failure, the lines of one exchange processed alone
    give the typed lines of that exchange, the same and in the same order. *)
Theorem exchanges_are_processed_independently p slice exchange lines :
  download_loop p slice [] = DownloadReturned (Some lines) None →
  download_loop p (filter (λ l, sl_Exchange l = exchange) slice) []
    = DownloadReturned (Some (filter (λ ret, Exchange ret = exchange) lines)) None.
Proof.
  intros [[[=] _]|([= ->] & _ & Hall)]%download_loop_inv.
  destruct (outcomes_of_exchange exchange slice p p) as [Hall' Hem]; [done|done|].
  rewrite download_loop_no_failure by done. cbn [app]. by rewrite Hem.
Qed.

Lemma outcomes_not_message p slice :
  Forall (λ l, sl_Type l ≠ LineTypeMessage) slice →
  outcomes p slice = (λ l, Returned (verbatim l) true None) <$> slice.
Proof.
  revert p. induction slice as [|line slice IH]; intros p Hall; [done|].
  apply Forall_cons in Hall as [Hline Hall].
  rewrite outcomes_cons, IH by done.
  by rewrite processRawLine_not_message.
Qed.

(** The typed lines are the raw lines that were emitted: their exchanges,
    types, timestamps and channels are, in order, those of a part of the raw
    lines. *)
Lemma emitted_headers_sublist slice : ∀ p,
  typed_header <$> emitted (outcomes p slice) `sublist_of` raw_header <$> slice.
Proof.
  induction slice as [|line slice IH]; intros p; [done|].
  rewrite outcomes_cons, emitted_cons.
  destruct (processRawLine p line).2 as [ret [|] err|reason] eqn:Ho;
    try (cbn; by apply sublist_cons).
  apply processRawLine_emitted_inv in Ho as (_ & Hhead & _).
  cbn. rewrite Hhead. by apply sublist_skip.
Qed.

(** An error of the loop of the download path is an error of
    [processRawLine]. *)
Lemma download_loop_error_is_DecodeError slice : ∀ p result lines e,
  download_loop p slice result = DownloadReturned lines (Some e) →
  is_DecodeError e = true.
Proof.
  induction slice as [|line slice IH]; intros p result lines e; [done|].
  rewrite download_loop_cons.
  destruct (processRawLine p line).2 as [ret [|] [e'|]|reason] eqn:Ho; try done;
    try by apply IH.
  intros [= _ <-]. by eapply processRawLine_error_is_DecodeError.
Qed.

(** ** More on the streaming path *)

Lemma Next_loop_with_cons fuel line slice f p :
  Next_loop (S fuel) (iterator_with (line :: slice) f p) =
    match (processRawLine p line).2 with
    | Returned processed true _ =>
        Some (iterator_with slice f (processRawLine p line).1,
              NextReturned (Some processed) true None)
    | Returned _ false None =>
        Next_loop fuel (iterator_with slice f (processRawLine p line).1)
    | Returned _ false (Some e) =>
        Some (iterator_with slice f (processRawLine p line).1,
              NextReturned None false (Some e))
    | Panicked reason =>
        Some (iterator_with slice f (processRawLine p line).1, NextPanicked reason)
    end.
Proof.
  cbn. destruct (processRawLine p line) as [p' [ret [|] [e|]|reason]]; done.
Qed.

Lemma Next_with_nil f p :
  Next (iterator_with [] f p)
    = Some (iterator_with [] f p, NextReturned None false f).
Proof. by destruct f. Qed.

Lemma Next_loop_with_enough slice : ∀ f p fuel,
  (length slice < fuel)%nat →
  Next_loop fuel (iterator_with slice f p) = Next (iterator_with slice f p) ∧
  is_Some (Next (iterator_with slice f p)).
Proof.
  induction slice as [|line slice IH]; intros f p fuel Hfuel.
  - destruct fuel as [|fuel]; [cbn in Hfuel; lia|].
    rewrite Next_with_nil. split; [by destruct f|by eauto].
  - destruct fuel as [|fuel]; [cbn in Hfuel; lia|]. cbn [length] in Hfuel.
    unfold Next. cbn [rawItr pending iterator_with length from_option].
    rewrite !Next_loop_with_cons.
    destruct (processRawLine p line).2 as [ret [|] [e|]|reason]; try by eauto.
    destruct (IH f (processRawLine p line).1 fuel) as [-> Hsome]; [lia|].
    destruct (IH f (processRawLine p line).1 (S (length slice))) as [Heq _]; [lia|].
    by rewrite Heq.
Qed.

Lemma Next_with_cons line slice f p :
  Next (iterator_with (line :: slice) f p) =
    match (processRawLine p line).2 with
    | Returned processed true _ =>
        Some (iterator_with slice f (processRawLine p line).1,
              NextReturned (Some processed) true None)
    | Returned _ false None => Next (iterator_with slice f (processRawLine p line).1)
    | Returned _ false (Some e) =>
        Some (iterator_with slice f (processRawLine p line).1,
              NextReturned None false (Some e))
    | Panicked reason =>
        Some (iterator_with slice f (processRawLine p line).1, NextPanicked reason)
    end.
Proof.
  unfold Next at 1. cbn [rawItr pending iterator_with length from_option].
  rewrite Next_loop_with_cons.
  by destruct (processRawLine p line).2 as [ret [|] [e|]|reason].
Qed.

(** Draining a stream gives what [drained] reads off the outcomes. *)
Lemma drain_drained slice : ∀ f p fuel,
  (length slice < fuel)%nat →
  drain fuel (iterator_with slice f p) = Some (drained (outcomes p slice) f).
Proof.
  induction slice as [|line slice IH]; intros f p fuel Hfuel.
  - destruct fuel as [|fuel]; [cbn in Hfuel; lia|].
    rewrite drain_S, Next_with_nil. by destruct f.
  - destruct fuel as [|fuel]; [cbn in Hfuel; lia|]. cbn [length] in Hfuel.
    rewrite drain_S, Next_with_cons, outcomes_cons. cbn [drained].
    destruct (processRawLine p line).2 as [ret [|] [e|]|reason]; try done.
    + rewrite IH by lia. by destruct (drained _ f).
    + rewrite IH by lia. by destruct (drained _ f).
    + rewrite <- drain_S. apply IH. lia.
Qed.

Lemma drained_app pre rest f :
  Forall no_failure pre →
  drained (pre ++ rest) f =
    ((emitted pre ++ (drained rest f).1)%list, (drained rest f).2).
Proof.
  induction pre as [|o pre IH]; intros Hall.
  - cbn. by destruct (drained rest f).
  - apply Forall_cons in Hall as [Ho Hall]. cbn [app]. rewrite emitted_cons.
    destruct o as [ret [|] [e|]|reason]; try done; cbn [drained];
      rewrite IH by done; done.
Qed.

Lemma drained_no_failure os f :
  Forall no_failure os → drained os f = (emitted os, end_of f).
Proof.
  intros Hall. rewrite <- (app_nil_r os) at 1. rewrite drained_app by done.
  cbn. by rewrite app_nil_r.
Qed.

(** X6: [Next] returns, whatever the iterator: the bound on the turns of its
    loop is never reached, and a larger bound gives the same result. *)
Theorem Next_returns i :
  ∃ i' o, Next i = Some (i', o) ∧
    ∀ fuel, (length (from_option pending [] (rawItr i)) < fuel)%nat →
      Next_loop fuel i = Some (i', o).
Proof.
  destruct i as [[[slice f]|] p].
  - destruct (Next_loop_with_enough slice f p (S (length slice))) as [_ [[i' o] Hnext]];
      [lia|].
    exists i', o. split; [done|]. intros fuel Hfuel. cbn in Hfuel.
    rewrite <- Hnext. by apply Next_loop_with_enough.
  - eexists _, _. split; [done|]. intros [|fuel] Hfuel; [cbn in Hfuel; lia|done].
Qed.

(** X7: [Next] passes over the lines that are taken as definitions and returns
    the first line that is emitted; the iterator is then past that line,
    with the table the passed lines left. *)
Theorem Next_skips_definition_lines p passed line rest f ret :
  Forall skipped (outcomes p passed) →
  (processRawLine (run p passed) line).2 = Returned ret true None →
  Next (iterator_with (passed ++ line :: rest) f p)
    = Some (iterator_with rest f (run p (passed ++ [line])),
            NextReturned (Some ret) true None).
Proof.
  revert p. induction passed as [|l passed IH]; intros p Hall Hline.
  - cbn [app]. rewrite Next_with_cons. cbn in Hline. by rewrite Hline.
  - rewrite outcomes_cons in Hall. apply Forall_cons in Hall as [Hl Hall].
    cbn [app]. rewrite Next_with_cons, !run_cons.
    destruct (processRawLine p l).2 as [ret' [|] [e|]|reason]; try done.
    by apply IH.
Qed.

(** X8: When only lines that are taken as definitions are left, or none, [Next]
    passes over them all and reports the end of the stream with
    [ok == false] and no line, handing on the error of the raw iterator if
    it has one; the processor then holds the table those lines left. *)
Theorem Next_at_end p slice f :
  Forall skipped (outcomes p slice) →
  Next (iterator_with slice f p)
    = Some (iterator_with [] f (run p slice), NextReturned None false f).
Proof.
  intros Hall.
  revert p Hall. induction slice as [|l slice IH]; intros p Hall.
  - apply Next_with_nil.
  - rewrite outcomes_cons in Hall. apply Forall_cons in Hall as [Hl Hall].
    rewrite Next_with_cons, run_cons.
    destruct (processRawLine p l).2 as [ret' [|] [e|]|reason]; try done.
    by apply IH.
Qed.

(** X9: A stream whose lines are all processed without failure yields the typed
    lines of the calls that emitted, in order, and then ends: gracefully, or
    with the transport error of the raw iterator. *)
Theorem stream_ends_after_all_lines p slice f fuel :
  Forall no_failure (outcomes p slice) →
  (length slice < fuel)%nat →
  drain fuel (iterator_with slice f p)
    = Some (emitted (outcomes p slice), end_of f).
Proof.
  intros Hall Hfuel. rewrite drain_drained by done. by rewrite drained_no_failure.
Qed.

(** X10: At the first line that fails with an error the stream has yielded the
    typed lines of the lines before it, and then reports the error; the
    download of the same lines returns the error and none of these lines. *)
Theorem stream_yields_lines_before_failure p pre line post f ret ok e fuel :
  Forall no_failure (outcomes p pre) →
  (processRawLine (run p pre) line).2 = Returned ret ok (Some e) →
  (length (pre ++ line :: post) < fuel)%nat →
  drain fuel (iterator_with (pre ++ line :: post) f p)
    = Some (emitted (outcomes p pre), Errored e) ∧
  download_loop p (pre ++ line :: post) [] = DownloadReturned None (Some e).
Proof.
  intros Hall Hline Hfuel. split; [|by eapply download_loop_failure].
  rewrite drain_drained by done.
  rewrite outcomes_app, drained_app by done. rewrite outcomes_cons, Hline.
  destruct ok; [by apply processRawLine_error_not_ok in Hline|].
  cbn. by rewrite app_nil_r.
Qed.

Lemma download_loop_panic pre : ∀ p result line post reason,
  Forall no_failure (outcomes p pre) →
  (processRawLine (run p pre) line).2 = Panicked reason →
  download_loop p (pre ++ line :: post)%list result = DownloadPanicked reason.
Proof.
  induction pre as [|l pre IH]; intros p result line post reason Hall Hline.
  - cbn [app]. rewrite download_loop_cons. cbn in Hline. by rewrite Hline.
  - rewrite outcomes_cons in Hall. apply Forall_cons in Hall as [Hl Hall].
    rewrite run_cons in Hline. cbn [app]. rewrite download_loop_cons.
    destruct (processRawLine p l).2 as [ret' [|] [e'|]|r]; try done;
      by eapply IH.
Qed.

(** X11: A message line without a channel makes both paths panic: the download
    returns nothing, the stream has yielded the typed lines of the lines
    before it. *)
Theorem message_without_channel_panics p pre line post f fuel :
  Forall no_failure (outcomes p pre) →
  sl_Type line = LineTypeMessage →
  sl_Channel line = None →
  (length (pre ++ line :: post) < fuel)%nat →
  download_loop p (pre ++ line :: post) []
    = DownloadPanicked "invalid memory address or nil pointer dereference" ∧
  drain fuel (iterator_with (pre ++ line :: post) f p)
    = Some (emitted (outcomes p pre),
            StreamPanicked "invalid memory address or nil pointer dereference").
Proof.
  intros Hall Hty Hch Hfuel.
  assert (Hline : (processRawLine (run p pre) line).2
                  = Panicked "invalid memory address or nil pointer dereference").
  { by rewrite processRawLine_nil_channel. }
  split; [by apply download_loop_panic|].
  rewrite drain_drained by done.
  rewrite outcomes_app, drained_app by done. rewrite outcomes_cons, Hline.
  cbn. by rewrite app_nil_r.
Qed.

Lemma emitted_verbatim slice :
  emitted ((λ l, Returned (verbatim l) true None) <$> slice) = verbatim <$> slice.
Proof. induction slice as [|l slice IH]; [done|]. cbn. by rewrite <- IH. Qed.

(** X12: Lines none of which is a message line always go through, on both paths:
    one typed line for each raw line, in order, with the payload as it is;
    nothing of the table is needed for them. *)
Theorem lines_without_messages_pass_verbatim p slice f fuel :
  Forall (λ l, sl_Type l ≠ LineTypeMessage) slice →
  (length slice < fuel)%nat →
  download_loop p slice [] = DownloadReturned (Some (verbatim <$> slice)) None ∧
  drain fuel (iterator_with slice f p) = Some (verbatim <$> slice, end_of f).
Proof.
  intros Hall Hfuel.
  assert (Hok : Forall no_failure (outcomes p slice)).
  { rewrite outcomes_not_message by done. apply Forall_fmap.
    by apply Forall_true. }
  split.
  - rewrite download_loop_no_failure by done. cbn [app].
    by rewrite outcomes_not_message, emitted_verbatim.
  - rewrite drain_drained, drained_no_failure by done.
    by rewrite outcomes_not_message, emitted_verbatim.
Qed.

Lemma drained_sublist os f : (drained os f).1 `sublist_of` emitted os.
Proof.
  induction os as [|o os IH]; [done|]. rewrite emitted_cons.
  destruct o as [ret [|] [e|]|reason]; cbn [drained];
    try apply sublist_nil_l; try done.
  - destruct (drained os f). by apply sublist_skip.
  - destruct (drained os f). by apply sublist_skip.
Qed.

(** X13: The typed lines of either path follow the raw lines: their exchanges,
    types, timestamps and channels are those of a part of the raw lines, in
    the order of the raw lines; so there are no more typed lines than raw
    lines. *)
Theorem typed_lines_follow_raw_lines p slice f :
  (∀ lines, download_loop p slice [] = DownloadReturned (Some lines) None →
     typed_header <$> lines `sublist_of` raw_header <$> slice ∧
     (length lines ≤ length slice)%nat) ∧
  (∀ fuel lines e, (length slice < fuel)%nat →
     drain fuel (iterator_with slice f p) = Some (lines, e) →
     typed_header <$> lines `sublist_of` raw_header <$> slice ∧
     (length lines ≤ length slice)%nat).
Proof.
  assert (Hlen : ∀ lines : list StructLine,
            typed_header <$> lines `sublist_of` raw_header <$> slice →
            (length lines ≤ length slice)%nat).
  { intros lines Hsub%sublist_length. by rewrite !length_fmap in Hsub. }
  split.
  - intros lines [[[=] _]|([= ->] & _ & _)]%download_loop_inv.
    cbn [app]. split; [|apply Hlen]; apply emitted_headers_sublist.
  - intros fuel lines e Hfuel Hdrain. rewrite drain_drained in Hdrain by done.
    assert (Hsub : typed_header <$> lines `sublist_of` raw_header <$> slice).
    { trans (typed_header <$> emitted (outcomes p slice));
        [|apply emitted_headers_sublist].
      apply fmap_sublist.
      pose proof (drained_sublist (outcomes p slice) f) as Hd.
      destruct (drained (outcomes p slice) f). by simplify_eq. }
    split; [done|by apply Hlen].
Qed.

(** X14: [DownloadWithContext] returns the lines or an error, never both and
    never neither; and the error is the error of the raw transport or a
    decode error of [processRawLine]. *)
Theorem DownloadWithContext_returns_lines_or_error r ctx concurrency lines err :
  DownloadWithContext r ctx concurrency = DownloadReturned lines err →
  (is_Some lines ↔ err = None) ∧
  (∀ e, err = Some e →
     (RawRequest_DownloadWithContext (rawRequest_of r) ctx concurrency).2 = Some e ∨
     is_DecodeError e = true).
Proof.
  unfold DownloadWithContext.
  destruct (RawRequest_DownloadWithContext (rawRequest_of r) ctx concurrency)
    as [slice [e|]]; cbn.
  - intros [= <- <-]. split; [split; [by intros [? [=]]|done]|].
    intros e' [= <-]. by left.
  - intros Hloop. split.
    + apply download_loop_inv in Hloop as [[-> [e ->]]|(-> & -> & _)].
      * split; [by intros [? [=]]|done].
      * split; [done|by eauto].
    + intros e ->. right. by eapply download_loop_error_is_DecodeError.
Qed.

Lemma Next_with_contract f slice : ∀ p i' line ok err,
  Next (iterator_with slice f p) = Some (i', NextReturned line ok err) →
  (ok = true ↔ is_Some line) ∧ (is_Some err → ok = false) ∧
  (∀ e, err = Some e → f = Some e ∨ is_DecodeError e = true).
Proof.
  induction slice as [|l slice IH]; intros p i' line ok err.
  - rewrite Next_with_nil. intros [= <- <- <- <-].
    split; [split; [done|by intros [? [=]]]|]. split; [done|]. intros e ->. by left.
  - rewrite Next_with_cons.
    destruct (processRawLine p l).2 as [ret [|] [e|]|reason] eqn:Ho; try done.
    + intros [= <- <- <- <-]. split; [split; by eauto|]. split; [by intros [? [=]]|done].
    + intros [= <- <- <- <-]. split; [split; by eauto|]. split; [by intros [? [=]]|done].
    + intros [= <- <- <- <-]. split; [split; [done|by intros [? [=]]]|].
      split; [done|]. intros e' [= <-]. right.
      by eapply processRawLine_error_is_DecodeError.
    + apply IH.
Qed.

(** X15: What [Next] returns is a line with [ok == true], or no line with
    [ok == false]; an error comes with [ok == false], and it is the
    transport error of the raw iterator or a decode error of
    [processRawLine]. *)
Theorem Next_returns_line_or_end i i' line ok err :
  Next i = Some (i', NextReturned line ok err) →
  (ok = true ↔ is_Some line) ∧ (is_Some err → ok = false) ∧
  (∀ e, err = Some e →
     (∃ raw, rawItr i = Some raw ∧ failure raw = Some e) ∨
     is_DecodeError e = true).
Proof.
  destruct i as [[[slice f]|] p]; [|done].
  intros (Hok & Herr & Hfrom)%(Next_with_contract f slice p).
  split; [done|]. split; [done|].
  intros e [->|?]%Hfrom; [left; by eexists|by right].
Qed.

(** X16: [Replay] returns the request or an error, never both and never neither;
    an error of [setupClient] comes before any check of the parameters, and
    a request that is returned holds the client of [setupClient], the copy
    of the filter and [start < end] in nanoseconds. *)
Theorem Replay_returns_request_or_error clientParam param req err :
  Replay clientParam param = (req, err) →
  (is_Some req ↔ err = None) ∧
  (∀ e, (setupClient clientParam).2 = Some e → err = Some e) ∧
  (∀ r, req = Some r →
     setupClient clientParam = (req_cli r, None) ∧
     copyFilter (param_Filter param) = (req_filter r, None) ∧
     req_start r = UnixNano (param_Start param) ∧
     req_end r = UnixNano (param_End param) ∧
     req_start r < req_end r).
Proof.
  unfold Replay, setupReplayRequest.
  destruct (setupClient clientParam) as [cli [e|]]; cbn.
  { intros [= <- <-]. split; [split; [by intros [? [=]]|done]|].
    split; [by intros ? [= <-]|done]. }
  destruct (copyFilter (param_Filter param)) as [filter [e|]]; cbn.
  { intros [= <- <-]. split; [split; [by intros [? [=]]|done]|]. by split. }
  destruct (Z.leb_spec (UnixNano (param_End param)) (UnixNano (param_Start param))).
  { intros [= <- <-]. split; [split; [by intros [? [=]]|done]|]. by split. }
  intros [= <- <-]. split; [split; by eauto|]. split; [done|].
  intros r [= <-]. cbn. repeat split; lia || done.
Qed.

(** X17: For instants within the range of [int64] nanoseconds (the years 1678 to
    2262) the construction compares the instants themselves: it gives the
    request, with the nanoseconds of the two instants, exactly when the
    start is before the end. *)
Theorem setupReplayRequest_compares_instants cli param filter :
  copyFilter (param_Filter param) = (filter, None) →
  minInt64 ≤ nanoseconds (param_Start param) ≤ maxInt64 →
  minInt64 ≤ nanoseconds (param_End param) ≤ maxInt64 →
  setupReplayRequest cli param =
    if decide (nanoseconds (param_Start param) < nanoseconds (param_End param))
    then (Some {| req_cli := cli; req_filter := filter;
                  req_start := nanoseconds (param_Start param);
                  req_end := nanoseconds (param_End param) |}, None)
    else (None, Some (errors_New "'Start' >= 'End'")).
Proof.
  intros Hcopy Hstart Hend. unfold setupReplayRequest. rewrite Hcopy.
  rewrite !UnixNano_exact by done. fold (nanoseconds (param_Start param)).
  fold (nanoseconds (param_End param)).
  destruct (Z.leb_spec (nanoseconds (param_End param)) (nanoseconds (param_Start param)));
    case_decide; done || lia.
Qed.

(** C5, as the code has it: for a start and an end within the range of
    [int64] nanoseconds, the construction fails, with no request, when the
    start is not before the end (with the "'Start' >= 'End'" error when the
    filter was copied), and succeeds when the start is before the end and
    the filter is copied. A request that was constructed holds the client,
    the copy of the filter and the nanoseconds of the two instants, with
    [start < end]; and these do not change: every [DownloadWithContext] and
    every [StreamWithContext] on it asks the raw transport with exactly
    these values and the format "json". *)
Theorem setupReplayRequest_validates_instants cli param :
  minInt64 ≤ nanoseconds (param_Start param) ≤ maxInt64 →
  minInt64 ≤ nanoseconds (param_End param) ≤ maxInt64 →
  (nanoseconds (param_End param) ≤ nanoseconds (param_Start param) →
   ∃ e, setupReplayRequest cli param = (None, Some e) ∧
     ((copyFilter (param_Filter param)).2 = None →
      e = errors_New "'Start' >= 'End'")) ∧
  (nanoseconds (param_Start param) < nanoseconds (param_End param) →
   ∀ filter, copyFilter (param_Filter param) = (filter, None) →
     setupReplayRequest cli param =
       (Some {| req_cli := cli; req_filter := filter;
                req_start := nanoseconds (param_Start param);
                req_end := nanoseconds (param_End param) |}, None)) ∧
  (∀ req err, setupReplayRequest cli param = (Some req, err) →
     err = None ∧
     nanoseconds (param_Start param) < nanoseconds (param_End param) ∧
     copyFilter (param_Filter param) = (req_filter req, None) ∧
     req = {| req_cli := cli; req_filter := req_filter req;
              req_start := nanoseconds (param_Start param);
              req_end := nanoseconds (param_End param) |} ∧
     (∀ ctx concurrency,
        DownloadWithContext req ctx concurrency =
          match RawRequest_DownloadWithContext
                  {| raw_cli := cli; raw_filter := req_filter req;
                     raw_start := nanoseconds (param_Start param);
                     raw_end := nanoseconds (param_End param);
                     raw_format := Some "json" |} ctx concurrency with
          | (_, Some e) => DownloadReturned None (Some e)
          | (slice, None) => download_loop newRawLineProcessor slice []
          end) ∧
     (∀ ctx bufferSize,
        StreamWithContext req ctx bufferSize =
          match RawRequest_StreamWithContext
                  {| raw_cli := cli; raw_filter := req_filter req;
                     raw_start := nanoseconds (param_Start param);
                     raw_end := nanoseconds (param_End param);
                     raw_format := Some "json" |} ctx bufferSize with
          | (_, Some e) => (None, Some e)
          | (itr, None) =>
              (Some {| rawItr := itr; processor := newRawLineProcessor |}, None)
          end)).
Proof.
  intros Hstart Hend. unfold setupReplayRequest.
  rewrite !UnixNano_exact by done.
  fold (nanoseconds (param_Start param)). fold (nanoseconds (param_End param)).
  destruct (copyFilter (param_Filter param)) as [filter [e|]]; cbn.
  { split; [intros _; by eexists|]. split; [by intros _ ? [=]|]. by intros ? ? [=]. }
  destruct (Z.leb_spec (nanoseconds (param_End param))
              (nanoseconds (param_Start param))) as [Hle|Hlt].
  { split; [intros _; by eexists|]. split; [lia|]. by intros ? ? [=]. }
  split; [lia|]. split; [by intros _ ? [= <-]|].
  intros req err [= <- <-]. cbn.
  split; [done|]. split; [done|]. split; [done|]. split; [done|]. split.
  - intros ctx concurrency. unfold DownloadWithContext, rawRequest_of. cbn.
    by destruct (RawRequest_DownloadWithContext _ ctx concurrency) as [slice [e|]].
  - intros ctx bufferSize.
    unfold StreamWithContext, newReplayStreamIterator, rawRequest_of. cbn.
    by destruct (RawRequest_StreamWithContext _ ctx bufferSize) as [itr [e|]].
Qed.

(** ** How the calls compose *)







(** X21: A Start line is emitted as it is and empties the entry of its exchange
    only: on a table without the exchange it changes nothing, and a second
    Start line changes nothing more. *)
Theorem start_line_resets_once p start :
  sl_Type start = LineTypeStart →
  (processRawLine p start).2 = Returned (verbatim start) true None ∧
  (defs p !! sl_Exchange start = None → (processRawLine p start).1 = p) ∧
  (processRawLine (processRawLine p start).1 start).1 = (processRawLine p start).1.
Proof.
  intros Hty.
  assert (Hstep : ∀ q, processRawLine q start
                    = ({| defs := delete (sl_Exchange start) (defs q) |},
                       Returned (verbatim start) true None)).
  { intros q. rewrite processRawLine_not_message by (rewrite Hty; discriminate).
    by rewrite bool_decide_eq_true_2. }
  rewrite !Hstep. cbn. split; [done|]. split.
  - intros Hnone. destruct p as [table]. cbn in *. f_equal.
    by apply delete_id.
  - f_equal. by rewrite delete_delete_eq.
Qed.

End Replay.

(** ** The order of map iteration

    Go may visit the entries of a definition in a different order at every
    [range]. The table after a call does not depend on the order, and a call
    that does not fail returns the same under every order; only which error
    or panic ends a failing call can differ. *)

Section IterationOrder.

Variable json_Unmarshal_def : string → gmap string string * option error.
Variable json_Unmarshal_obj : string → gmap string value * option error.
Variable int64_unrepresentable : spec_float → Z.
Variables range1 range2 : RangeOrder.

Local Abbreviation processRawLine1 :=
  (processRawLine json_Unmarshal_def json_Unmarshal_obj int64_unrepresentable range1).
Local Abbreviation processRawLine2 :=
  (processRawLine json_Unmarshal_def json_Unmarshal_obj int64_unrepresentable range2).
Local Abbreviation outcomes1 :=
  (outcomes json_Unmarshal_def json_Unmarshal_obj int64_unrepresentable range1).
Local Abbreviation outcomes2 :=
  (outcomes json_Unmarshal_def json_Unmarshal_obj int64_unrepresentable range2).

Lemma processRawLine_order p line :
  (processRawLine2 p line).1 = (processRawLine1 p line).1 ∧
  (no_failure (processRawLine1 p line).2 →
   (processRawLine2 p line).2 = (processRawLine1 p line).2).
Proof.
  destruct (decide (sl_Type line = LineTypeMessage)) as [Hty|Hty];
    [|by rewrite !processRawLine_not_message].
  destruct (sl_Channel line) as [c|] eqn:Hch;
    [|by rewrite !processRawLine_nil_channel].
  destruct (definition_of p (sl_Exchange line) c) as [def|] eqn:Hdef;
    [|by rewrite !(processRawLine_definition _ _ _ _ p line c)].
  rewrite !(processRawLine_message _ _ _ _ p line c def) by done.
  destruct (json_Unmarshal_obj (sl_Message line)) as [msgObj [e|]]; [done|].
  destruct (convert int64_unrepresentable (range1 def) msgObj)
    as [fields|e|reason] eqn:Hc.
  - apply convert_range_iff in Hc.
    apply (convert_range_iff int64_unrepresentable range2) in Hc. by rewrite Hc.
  - by destruct (convert int64_unrepresentable (range2 def) msgObj).
  - by destruct (convert int64_unrepresentable (range2 def) msgObj).
Qed.

Lemma outcomes_order lines : ∀ p,
  Forall no_failure (outcomes1 p lines) → outcomes2 p lines = outcomes1 p lines.
Proof.
  induction lines as [|line lines IH]; intros p; [done|].
  rewrite !outcomes_cons. intros [Hline Hall]%Forall_cons.
  destruct (processRawLine_order p line) as [Htable Hout].
  rewrite Htable, Hout by done. by rewrite IH.
Qed.

(** X22: The order of map iteration has no part in what a consumer sees of calls
    that do not fail: the table after a call is the same under any two
    orders, a call that returns without an error under one returns the same
    under the other, and so do the calls on a run of lines. *)
Theorem processRawLine_does_not_depend_on_order p line :
  (processRawLine2 p line).1 = (processRawLine1 p line).1 ∧
  (∀ ret ok, (processRawLine1 p line).2 = Returned ret ok None →
     (processRawLine2 p line).2 = Returned ret ok None) ∧
  (∀ lines, Forall no_failure (outcomes1 p lines) →
     outcomes2 p lines = outcomes1 p lines).
Proof.
  destruct (processRawLine_order p line) as [Htable Hout].
  split; [done|]. split.
  - intros ret ok Hret. rewrite Hout; [done|]. by rewrite Hret.
  - intros lines Hall. by apply outcomes_order.
Qed.

End IterationOrder.

(** ** The two consumption paths over the same raw lines *)

Section Equivalence.

Variable json_Unmarshal_def : string → gmap string string * option error.
Variable json_Unmarshal_obj : string → gmap string value * option error.
Variable int64_unrepresentable : spec_float → Z.
Variables range_download range_stream : RangeOrder.
Variable Client : Type.
Variable Context : Type.
Variable RawRequest_DownloadWithContext :
  RawRequest Client → Context → Z → list StringLine * option error.
Variable RawRequest_StreamWithContext :
  RawRequest Client → Context → Z → option StringLineIterator * option error.

Local Abbreviation DownloadWithContext' :=
  (DownloadWithContext json_Unmarshal_def json_Unmarshal_obj int64_unrepresentable
     range_download Client Context RawRequest_DownloadWithContext).
Local Abbreviation StreamWithContext' :=
  (StreamWithContext Client Context RawRequest_StreamWithContext).
Local Abbreviation drain' :=
  (drain json_Unmarshal_def json_Unmarshal_obj int64_unrepresentable range_stream).

(** C4: over the same raw lines, whatever the orders of map iteration on the
    two sides, draining the streaming iterator ends, and the download
    returns lines exactly when the stream drains to exhaustion: the same
    lines in the same order. When the stream ends with an error or a panic
    the download returns no lines. *)
Theorem download_equals_drained_stream r ctx concurrency bufferSize slice :
  RawRequest_DownloadWithContext (rawRequest_of Client r) ctx concurrency
    = (slice, None) →
  RawRequest_StreamWithContext (rawRequest_of Client r) ctx bufferSize
    = (Some {| pending := slice; failure := None |}, None) →
  ∃ itr lines e,
    StreamWithContext' r ctx bufferSize = (Some itr, None) ∧
    (∀ fuel, (length slice < fuel)%nat → drain' fuel itr = Some (lines, e)) ∧
    (e = Exhausted ↔
     DownloadWithContext' r ctx concurrency = DownloadReturned (Some lines) None) ∧
    (∀ lines', DownloadWithContext' r ctx concurrency
                 = DownloadReturned (Some lines') None →
       e = Exhausted ∧ lines' = lines) ∧
    (e ≠ Exhausted →
     (∃ err, DownloadWithContext' r ctx concurrency
               = DownloadReturned None (Some err)) ∨
     (∃ reason, DownloadWithContext' r ctx concurrency = DownloadPanicked reason)).
Proof.
  intros Hdown Hstream.
  exists (iterator_over slice newRawLineProcessor).
  destruct (drain_download_loop json_Unmarshal_def json_Unmarshal_obj
              int64_unrepresentable range_stream slice newRawLineProcessor)
    as (lines & e & Hdrain & Hloop).
  specialize (Hloop []). cbn [app] in Hloop.
  exists lines, e.
  assert (Hd : DownloadWithContext' r ctx concurrency
               = download_loop json_Unmarshal_def json_Unmarshal_obj
                   int64_unrepresentable range_download newRawLineProcessor slice []).
  { unfold DownloadWithContext. by rewrite Hdown. }
  assert (Hback : ∀ lines', DownloadWithContext' r ctx concurrency
                    = DownloadReturned (Some lines') None →
                  e = Exhausted ∧ lines' = lines).
  { intros lines' Hret. rewrite Hd in Hret.
    destruct (download_loop_inv _ _ _ _ _ _ _ _ _ Hret)
      as [[[=] _]|([= ->] & _ & Hall)].
    pose proof (outcomes_order json_Unmarshal_def json_Unmarshal_obj
                  int64_unrepresentable range_download range_stream slice
                  newRawLineProcessor Hall) as Hsame.
    rewrite <- Hsame in Hall.
    rewrite (download_loop_no_failure _ _ _ _ _ _ [] Hall), Hsame in Hloop.
    destruct e; cbn in Hloop; by simplify_eq. }
  assert (Hforth : e = Exhausted →
                   DownloadWithContext' r ctx concurrency
                     = DownloadReturned (Some lines) None).
  { intros ->. cbn in Hloop. rewrite Hd.
    destruct (download_loop_inv _ _ _ _ _ _ _ _ _ Hloop)
      as [[[=] _]|([= ->] & _ & Hall)].
    pose proof (outcomes_order json_Unmarshal_def json_Unmarshal_obj
                  int64_unrepresentable range_stream range_download slice
                  newRawLineProcessor Hall) as Hsame.
    rewrite <- Hsame in Hall.
    by rewrite (download_loop_no_failure _ _ _ _ _ _ [] Hall), Hsame. }
  split; [|split; [done|split; [|split; [done|]]]].
  - unfold StreamWithContext, newReplayStreamIterator. by rewrite Hstream.
  - split; [done|]. by intros [? _]%Hback.
  - intros Hne. symmetry in Hd.
    destruct (DownloadWithContext' r ctx concurrency) as [[lines'|] [err|]|reason];
      [| |by left; eexists| |by right; eexists].
    + by apply download_loop_inv in Hd as [[[=] _]|(_ & [=] & _)].
    + by destruct (Hback lines' eq_refl).
    + by apply download_loop_inv in Hd as [[_ [? [=]]]|([=] & _)].
Qed.

End Equivalence.

(** ** The claims at the sample data *)

(** The spec's example of type coercion, through [processRawLine_coerces]. *)
Lemma processRawLine_coerces_sample :
  processRawLine sample_Unmarshal_def sample_Unmarshal_obj sample_unrepresentable
      sample_range sample_processor
      (sample_line LineTypeMessage "bitmex" (Some "trade") sample_msg_payload) =
    (sample_processor,
     Returned {| Exchange := "bitmex"; Type_ := LineTypeMessage;
                 Timestamp := 1620000000000000000; Channel := Some "trade";
                 Message := MsgFields {[ "ts" := VInt64 1620000000000000000;
                                         "n" := VInt64 42; "s" := VString "x" ]};
                 Definition_ := Some sample_def |} true None).
Proof.
  destruct (processRawLine_coerces sample_Unmarshal_def sample_Unmarshal_obj
              sample_unrepresentable sample_range sample_processor
              (sample_line LineTypeMessage "bitmex" (Some "trade") sample_msg_payload)
              "trade" sample_def sample_msg)
    as (fields & Hrun & Hfields & _).
  - reflexivity.
  - reflexivity.
  - reflexivity.
  - reflexivity.
  - apply well_shaped_fields_spec. vm_compute. reflexivity.
  - rewrite Hrun, Hfields. vm_compute. reflexivity.
Defined.

(** The definition line of the sample pair, through
    [processRawLine_stores_definition]. *)
Lemma processRawLine_stores_definition_sample :
  ∃ p',
    processRawLine sample_Unmarshal_def sample_Unmarshal_obj sample_unrepresentable
        sample_range newRawLineProcessor
        (sample_line LineTypeMessage "bitmex" (Some "trade") sample_def_payload) =
      (p', Returned zeroStructLine false None) ∧
    definition_of p' "bitmex" "trade" = Some sample_def.
Proof.
  destruct (processRawLine_stores_definition sample_Unmarshal_def sample_Unmarshal_obj
              sample_unrepresentable sample_range newRawLineProcessor
              (sample_line LineTypeMessage "bitmex" (Some "trade") sample_def_payload)
              "trade")
    as (p' & err & Hrun & Hcase).
  - reflexivity.
  - reflexivity.
  - reflexivity.
  - vm_compute in Hcase. destruct Hcase as [-> Hdef].
    exists p'. split; [exact Hrun|exact Hdef].
Defined.

Local Abbreviation sample_processRawLine :=
  (processRawLine sample_Unmarshal_def sample_Unmarshal_obj sample_unrepresentable
     sample_range).

Local Abbreviation sample_run :=
  (run sample_Unmarshal_def sample_Unmarshal_obj sample_unrepresentable sample_range).

(** After a Start line of bitmex, the definition line of (bitmex, trade) is
    again a definition line, although the same definition was stored before;
    through [start_resets_schema]. *)
Lemma start_resets_schema_sample :
  definition_of sample_processor "bitmex" "trade" = Some sample_def ∧
  definition_of (sample_processRawLine sample_processor start_line).1
    "bitmex" "trade" = None ∧
  ∃ p',
    sample_processRawLine
      (sample_run (sample_processRawLine sample_processor start_line).1 sample_mid)
      def_line = (p', Returned zeroStructLine false None) ∧
    definition_of p' "bitmex" "trade" = Some sample_def.
Proof.
  destruct (start_resets_schema sample_Unmarshal_def sample_Unmarshal_obj
              sample_unrepresentable sample_range sample_processor
              start_line sample_mid def_line "trade")
    as (_ & Hgone & p' & err & Hrun & Hcase).
  - reflexivity.
  - repeat (constructor; [intros (? & ? & ?); discriminate|]). constructor.
  - reflexivity.
  - reflexivity.
  - reflexivity.
  - split; [reflexivity|]. split; [exact (Hgone "trade")|].
    vm_compute in Hcase. destruct Hcase as [-> Hdef].
    exists p'. split; [exact Hrun|exact Hdef].
Defined.

(** A message with a null timestamp and a field the definition does not
    name; through [processRawLine_passes_null_and_unnamed]. *)
Lemma processRawLine_passes_null_and_unnamed_sample :
  ∃ ret fields,
    (sample_processRawLine sample_processor
       (sample_line LineTypeMessage "bitmex" (Some "trade") null_msg_payload)).2
      = Returned ret true None ∧
    Message ret = MsgFields fields ∧
    fields !! "ts" = Some VNil ∧
    fields !! "extra" = Some (VString "kept").
Proof.
  destruct (processRawLine_passes_null_and_unnamed sample_Unmarshal_def
              sample_Unmarshal_obj sample_unrepresentable sample_range
              sample_processor
              (sample_line LineTypeMessage "bitmex" (Some "trade") null_msg_payload)
              "trade" sample_def null_msg)
    as (Hpass & _ & _).
  - reflexivity.
  - reflexivity.
  - reflexivity.
  - reflexivity.
  - assert (Hrun :
      (sample_processRawLine sample_processor
         (sample_line LineTypeMessage "bitmex" (Some "trade") null_msg_payload)).2
        = Returned
            {| Exchange := "bitmex"; Type_ := LineTypeMessage;
               Timestamp := 1620000000000000000; Channel := Some "trade";
               Message := MsgFields {[ "ts" := VNil; "n" := VInt64 42;
                                       "extra" := VString "kept" ]};
               Definition_ := Some sample_def |} true None).
    { vm_compute. reflexivity. }
    destruct (Hpass _ _ _ Hrun eq_refl) as (fields & Hmsg & Hsame).
    eexists _, fields. split; [exact Hrun|]. split; [exact Hmsg|]. split.
    + rewrite (Hsame "ts"); [reflexivity|right; reflexivity].
    + rewrite (Hsame "extra"); [reflexivity|left; reflexivity].
Defined.

(** C7 fails on the code: once the definition line of (bitmex, trade) is
    stored, a message whose "int" field is a string, or whose "timestamp"
    field is a boolean, makes [processRawLine] panic instead of returning an
    error. *)
Theorem processRawLine_panics_on_mistyped_sample :
  sample_processRawLine newRawLineProcessor def_line
    = (sample_processor, Returned zeroStructLine false None) ∧
  sample_processRawLine sample_processor
    (sample_line LineTypeMessage "bitmex" (Some "trade") bad_int_payload)
    = (sample_processor,
       Panicked "interface conversion: interface {} is not float64") ∧
  sample_processRawLine sample_processor
    (sample_line LineTypeMessage "bitmex" (Some "trade") bool_ts_payload)
    = (sample_processor,
       Panicked "interface conversion: interface {} is not string").
Proof. repeat split; vm_compute; reflexivity. Qed.

(** On the sample, a timestamp that is not a number gives a decode
    error. *)
Example processRawLine_rejects_bad_timestamp_sample :
  sample_processRawLine sample_processor
    (sample_line LineTypeMessage "bitmex" (Some "trade") bad_ts_payload)
    = (sample_processor,
       Returned zeroStructLine false
         (Some (fmt_Errorf "type conversion"
                  (strconv_NumError "ParseInt" "soon" ErrSyntax)))).
Proof. vm_compute. reflexivity. Qed.

(** C9 fails as stated: the first line seen for an exchange, an end line
    here, leaves the table without an entry for the exchange, so it is not
    true that a line of any type creates the entry; and the first message
    line of a pair, when its payload does not decode, stores nothing, so
    that the definition of the pair comes from the second one. *)
Lemma first_line_creates_no_entry :
  defs newRawLineProcessor !! "bitmex" = None ∧
  defs (sample_processRawLine newRawLineProcessor end_line).1 !! "bitmex" = None ∧
  ¬ (∀ line,
       is_Some (defs (sample_processRawLine newRawLineProcessor line).1
                  !! sl_Exchange line)) ∧
  sample_processRawLine newRawLineProcessor undecodable_line
    = ({| defs := {[ "bitmex" := ∅ ]} |},
       Returned zeroStructLine false
         (Some (fmt_Errorf "def update unmarshal"
                  (foreign_error "json: cannot unmarshal into map[string]string")))) ∧
  definition_of (sample_processRawLine newRawLineProcessor undecodable_line).1
    "bitmex" "trade" = None ∧
  definition_of (sample_run newRawLineProcessor [undecodable_line; def_line])
    "bitmex" "trade" = Some sample_def.
Proof.
  split; [reflexivity|]. split; [reflexivity|]. split.
  - intros Hall. destruct (Hall end_line) as [channels Hsome].
    vm_compute in Hsome. discriminate Hsome.
  - repeat split; vm_compute; reflexivity.
Qed.

Local Abbreviation sample_request :=
  ({| req_cli := tt; req_filter := {[ "bitmex" := ["trade"] ]};
      req_start := 1620000000000000000; req_end := 1620000060000000000 |}
   : ReplayRequest unit).

Local Abbreviation sample_DownloadWithContext :=
  (DownloadWithContext sample_Unmarshal_def sample_Unmarshal_obj
     sample_unrepresentable sample_range unit unit
     (λ _ _ _, (sample_slice, None))).

Local Abbreviation sample_StreamWithContext :=
  (StreamWithContext unit unit
     (λ _ _ _, (Some {| pending := sample_slice; failure := None |}, None))).

Local Abbreviation sample_drain :=
  (drain sample_Unmarshal_def sample_Unmarshal_obj sample_unrepresentable
     sample_range).

(** The request of the sample parameters. *)
Example setupReplayRequest_sample :
  setupReplayRequest unit (λ filter, (filter, None)) tt sample_param
    = (Some sample_request, None).
Proof. vm_compute. reflexivity. Qed.

(** The download of the sample shard: the definition line is not in the
    result; through [download_drops_and_aborts]. *)
Lemma download_drops_and_aborts_sample :
  sample_DownloadWithContext sample_request tt 4
    = DownloadReturned (Some [typed_start_line; typed_msg_line]) None.
Proof.
  destruct (download_drops_and_aborts sample_Unmarshal_def sample_Unmarshal_obj
              sample_unrepresentable sample_range unit unit
              (λ _ _ _, (sample_slice, None)) sample_request tt 4 sample_slice)
    as (Hlines & _ & _).
  - reflexivity.
  - rewrite Hlines.
    + vm_compute. reflexivity.
    + vm_compute. repeat constructor.
Defined.

(** A shard whose message has a timestamp that is not a number: the
    download returns the error and no lines; the stream gives the Start
    line, then the same error. *)
Example download_and_stream_at_decode_error :
  let slice :=
    [start_line; def_line;
     sample_line LineTypeMessage "bitmex" (Some "trade") bad_ts_payload] in
  let e := fmt_Errorf "type conversion"
             (strconv_NumError "ParseInt" "soon" ErrSyntax) in
  download_loop sample_Unmarshal_def sample_Unmarshal_obj sample_unrepresentable
    sample_range newRawLineProcessor slice []
    = DownloadReturned None (Some e) ∧
  sample_drain 4 (iterator_over slice newRawLineProcessor)
    = Some ([typed_start_line], Errored e).
Proof. split; vm_compute; reflexivity. Qed.

(** The sample shard, downloaded and streamed: the same two typed lines;
    through [download_equals_drained_stream]. *)
Lemma download_equals_drained_stream_sample :
  ∃ itr,
    sample_StreamWithContext sample_request tt 10 = (Some itr, None) ∧
    sample_drain 4 itr = Some ([typed_start_line; typed_msg_line], Exhausted) ∧
    sample_DownloadWithContext sample_request tt 4
      = DownloadReturned (Some [typed_start_line; typed_msg_line]) None.
Proof.
  destruct (download_equals_drained_stream sample_Unmarshal_def sample_Unmarshal_obj
              sample_unrepresentable sample_range sample_range unit unit
              (λ _ _ _, (sample_slice, None))
              (λ _ _ _, (Some {| pending := sample_slice; failure := None |}, None))
              sample_request tt 4 10 sample_slice)
    as (itr & lines & e & Hstream & Hdrain & Hdown & _).
  - reflexivity.
  - reflexivity.
  - exists itr. split; [exact Hstream|].
    specialize (Hdrain 4%nat ltac:(cbn; lia)).
    injection Hstream as <-.
    assert (Hrun : sample_drain 4
                     (iterator_over sample_slice newRawLineProcessor)
                   = Some ([typed_start_line; typed_msg_line], Exhausted)).
    { vm_compute. reflexivity. }
    pose proof (eq_trans (eq_sym Hdrain) Hrun) as Heq. injection Heq as -> ->.
    split; [exact Hrun|]. apply Hdown. reflexivity.
Defined.

(** ** The further properties at the sample data *)

Local Abbreviation sample_outcomes :=
  (outcomes sample_Unmarshal_def sample_Unmarshal_obj sample_unrepresentable
     sample_range).

Local Abbreviation sample_download_loop :=
  (download_loop sample_Unmarshal_def sample_Unmarshal_obj sample_unrepresentable
     sample_range).

Local Abbreviation sample_Next :=
  (Next sample_Unmarshal_def sample_Unmarshal_obj sample_unrepresentable
     sample_range).

Lemma processRawLine_emitted_line_sample :
  typed_header typed_msg_line = raw_header msg_line.
Proof.
  destruct (processRawLine_emitted_line sample_Unmarshal_def sample_Unmarshal_obj
              sample_unrepresentable sample_range sample_processor msg_line
              typed_msg_line None) as (_ & Hhead & _).
  - vm_compute. reflexivity.
  - exact Hhead.
Defined.

Lemma processRawLine_keeps_field_names_sample :
  ∃ msgObj,
    sample_Unmarshal_obj sample_msg_payload = (msgObj, None) ∧
    dom ({[ "ts" := VInt64 1620000000000000000; "n" := VInt64 42;
            "s" := VString "x" ]} : gmap string value) = dom msgObj.
Proof.
  destruct (processRawLine_keeps_field_names sample_Unmarshal_def sample_Unmarshal_obj
              sample_unrepresentable sample_range sample_processor msg_line
              typed_msg_line None
              {[ "ts" := VInt64 1620000000000000000; "n" := VInt64 42;
                 "s" := VString "x" ]})
    as (def & msgObj & _ & Hobj & Hdom & _).
  - vm_compute. reflexivity.
  - reflexivity.
  - exists msgObj. split; [exact Hobj|exact Hdom].
Defined.

Lemma stored_definition_survives_sample :
  definition_of
    (sample_run sample_processor
       [msg_line; def_line; end_line; sample_line LineTypeStart "bitflyer" None ""])
    "bitmex" "trade" = Some sample_def.
Proof.
  apply (stored_definition_survives sample_Unmarshal_def sample_Unmarshal_obj
           sample_unrepresentable sample_range).
  - reflexivity.
  - repeat (constructor; [intros [? ?]; discriminate|]). constructor.
Defined.

Lemma outcome_depends_on_pair_definition_sample :
  (sample_processRawLine sample_processor msg_line).2
    = (sample_processRawLine busy_processor msg_line).2.
Proof.
  apply (outcome_depends_on_pair_definition sample_Unmarshal_def sample_Unmarshal_obj
           sample_unrepresentable sample_range).
  intros channel [= <-]. vm_compute. reflexivity.
Defined.

Lemma exchanges_are_processed_independently_sample :
  sample_download_loop newRawLineProcessor
    (filter (λ l, sl_Exchange l = "bitmex") mixed_slice) []
    = DownloadReturned (Some [typed_start_line; typed_msg_line]) None.
Proof.
  rewrite (exchanges_are_processed_independently sample_Unmarshal_def
             sample_Unmarshal_obj sample_unrepresentable sample_range
             newRawLineProcessor mixed_slice "bitmex"
             (emitted (sample_outcomes newRawLineProcessor mixed_slice))).
  - vm_compute. reflexivity.
  - vm_compute. reflexivity.
Defined.

Lemma Next_skips_definition_lines_sample :
  sample_Next (iterator_with ([def_line] ++ msg_line :: [end_line]) None
                 newRawLineProcessor)
    = Some (iterator_with [end_line] None
              (sample_run newRawLineProcessor ([def_line] ++ [msg_line])),
            NextReturned (Some typed_msg_line) true None).
Proof.
  apply (Next_skips_definition_lines sample_Unmarshal_def sample_Unmarshal_obj
           sample_unrepresentable sample_range).
  - vm_compute. repeat constructor.
  - vm_compute. reflexivity.
Defined.

Lemma Next_at_end_sample :
  sample_Next (iterator_with [other_def_line] (Some transport_error) sample_processor)
    = Some (iterator_with [] (Some transport_error)
              (sample_run sample_processor [other_def_line]),
            NextReturned None false (Some transport_error)).
Proof.
  apply (Next_at_end sample_Unmarshal_def sample_Unmarshal_obj
           sample_unrepresentable sample_range).
  vm_compute. repeat constructor.
Defined.

Lemma stream_ends_after_all_lines_sample :
  sample_drain 4 (iterator_with sample_slice (Some transport_error) newRawLineProcessor)
    = Some (emitted (sample_outcomes newRawLineProcessor sample_slice),
            end_of (Some transport_error)).
Proof.
  apply (stream_ends_after_all_lines sample_Unmarshal_def sample_Unmarshal_obj
           sample_unrepresentable sample_range).
  - vm_compute. repeat constructor.
  - cbn. lia.
Defined.

Lemma stream_yields_lines_before_failure_sample :
  sample_drain 5
    (iterator_with ([start_line; def_line] ++ bad_ts_line :: [msg_line]) None
       newRawLineProcessor)
    = Some (emitted (sample_outcomes newRawLineProcessor [start_line; def_line]),
            Errored (fmt_Errorf "type conversion"
                       (strconv_NumError "ParseInt" "soon" ErrSyntax))) ∧
  sample_download_loop newRawLineProcessor
    ([start_line; def_line] ++ bad_ts_line :: [msg_line]) []
    = DownloadReturned None
        (Some (fmt_Errorf "type conversion"
                 (strconv_NumError "ParseInt" "soon" ErrSyntax))).
Proof.
  apply (stream_yields_lines_before_failure sample_Unmarshal_def sample_Unmarshal_obj
           sample_unrepresentable sample_range newRawLineProcessor
           [start_line; def_line] bad_ts_line [msg_line] None zeroStructLine false).
  - vm_compute. repeat constructor.
  - vm_compute. reflexivity.
  - cbn. lia.
Defined.

Lemma message_without_channel_panics_sample :
  sample_download_loop newRawLineProcessor ([start_line] ++ no_channel_line :: []) []
    = DownloadPanicked "invalid memory address or nil pointer dereference" ∧
  sample_drain 3
    (iterator_with ([start_line] ++ no_channel_line :: []) None newRawLineProcessor)
    = Some (emitted (sample_outcomes newRawLineProcessor [start_line]),
            StreamPanicked "invalid memory address or nil pointer dereference").
Proof.
  apply (message_without_channel_panics sample_Unmarshal_def sample_Unmarshal_obj
           sample_unrepresentable sample_range).
  - vm_compute. repeat constructor.
  - reflexivity.
  - reflexivity.
  - cbn. lia.
Defined.

Lemma lines_without_messages_pass_verbatim_sample :
  sample_download_loop sample_processor [start_line; end_line] []
    = DownloadReturned (Some (verbatim <$> [start_line; end_line])) None ∧
  sample_drain 3 (iterator_with [start_line; end_line] None sample_processor)
    = Some (verbatim <$> [start_line; end_line], end_of None).
Proof.
  apply (lines_without_messages_pass_verbatim sample_Unmarshal_def
           sample_Unmarshal_obj sample_unrepresentable sample_range).
  - repeat (constructor; [discriminate|]). constructor.
  - cbn. lia.
Defined.

Lemma DownloadWithContext_returns_lines_or_error_sample :
  is_DecodeError (fmt_Errorf "type conversion"
                    (strconv_NumError "ParseInt" "soon" ErrSyntax)) = true.
Proof.
  destruct (DownloadWithContext_returns_lines_or_error sample_Unmarshal_def
              sample_Unmarshal_obj sample_unrepresentable sample_range unit unit
              (λ _ _ _, ([start_line; def_line; bad_ts_line], None))
              sample_request tt 4 None
              (Some (fmt_Errorf "type conversion"
                       (strconv_NumError "ParseInt" "soon" ErrSyntax))))
    as [_ Hfrom].
  - vm_compute. reflexivity.
  - destruct (Hfrom _ eq_refl) as [Hraw|Hdecode]; [discriminate Hraw|exact Hdecode].
Defined.

Lemma Next_returns_line_or_end_sample :
  (true = true ↔ is_Some (Some typed_msg_line)) ∧
  (is_Some (@None error) → true = false).
Proof.
  destruct (Next_returns_line_or_end sample_Unmarshal_def sample_Unmarshal_obj
              sample_unrepresentable sample_range
              (iterator_with [def_line; msg_line] None newRawLineProcessor)
              (iterator_with [] None sample_processor)
              (Some typed_msg_line) true None)
    as (Hok & Herr & _).
  - vm_compute. reflexivity.
  - split; [exact Hok|exact Herr].
Defined.

Lemma Replay_returns_request_or_error_sample :
  is_Some (Some sample_request) ↔ @None error = None.
Proof.
  destruct (Replay_returns_request_or_error unit (λ filter, (filter, None)) unit
              (λ _, (tt, None)) tt sample_param (Some sample_request) None)
    as (Hreq & _ & _).
  - vm_compute. reflexivity.
  - exact Hreq.
Defined.

Lemma setupReplayRequest_compares_instants_sample :
  setupReplayRequest unit (λ filter, (filter, None)) tt sample_param
    = (Some sample_request, None).
Proof.
  rewrite (setupReplayRequest_compares_instants unit (λ filter, (filter, None)) tt
             sample_param (param_Filter sample_param)).
  - vm_compute. reflexivity.
  - reflexivity.
  - split; vm_compute; discriminate.
  - split; vm_compute; discriminate.
Defined.




Lemma start_line_resets_once_sample :
  (sample_processRawLine sample_processor start_line).2
    = Returned (verbatim start_line) true None ∧
  (defs sample_processor !! sl_Exchange start_line = None →
   (sample_processRawLine sample_processor start_line).1 = sample_processor) ∧
  (sample_processRawLine (sample_processRawLine sample_processor start_line).1
     start_line).1
    = (sample_processRawLine sample_processor start_line).1.
Proof.
  apply (start_line_resets_once sample_Unmarshal_def sample_Unmarshal_obj
           sample_unrepresentable sample_range).
  reflexivity.
Defined.

(** C5 fails as stated, beyond the range of [int64] nanoseconds: a start in
    April 2262 is after an end in 2021 and the request is constructed; a
    start in the year 1 is before an end in the year 1700 and the
    construction fails. *)
Lemma start_after_end_is_accepted :
  nanoseconds (param_End late_param) < nanoseconds (param_Start late_param) ∧
  setupReplayRequest unit (λ filter, (filter, None)) tt late_param
    = (Some {| req_cli := tt; req_filter := {[ "bitmex" := ["trade"] ]};
               req_start := -9223372036709551616;
               req_end := 1620000000000000000 |}, None) ∧
  nanoseconds (param_Start early_param) < nanoseconds (param_End early_param) ∧
  setupReplayRequest unit (λ filter, (filter, None)) tt early_param
    = (None, Some (errors_New "'Start' >= 'End'")).
Proof. repeat split; vm_compute; reflexivity. Qed.

(** The request of the sample parameters, through
    [setupReplayRequest_validates_instants]. *)
Lemma setupReplayRequest_validates_instants_sample :
  setupReplayRequest unit (λ filter, (filter, None)) tt sample_param
    = (Some sample_request, None).
Proof.
  destruct (setupReplayRequest_validates_instants sample_Unmarshal_def
              sample_Unmarshal_obj sample_unrepresentable sample_range unit unit
              (λ filter, (filter, None))
              (λ _ _ _, (sample_slice, None))
              (λ _ _ _, (Some {| pending := sample_slice; failure := None |}, None))
              tt sample_param)
    as (_ & Hok & _).
  - split; vm_compute; discriminate.
  - split; vm_compute; discriminate.
  - apply Hok; reflexivity.
Defined.
